(** * photometry_tools: the FITS header adjuster (modify-fits-header.py)

    A shallow embedding of the header-editing script and the properties of
    its edit steps.  The script is Python 3: strings are sequences of code
    points (here restricted to code points below 256, Rocq's [ascii]), the
    FITS header is a keyword-indexed mapping, and the edit steps mutate the
    header of the opened file and print diagnostics.

    Layout: Python string helpers; a backtracking regular-expression matcher
    (the subset of [re] the script uses); the header and the effect monad;
    the interfaces of the external libraries ([float], [astropy.time]); the
    script's functions; a reference instance of the library interfaces; then
    the lemmas. *)

From Stdlib Require Import ZArith QArith Floats String Ascii List Bool Lia.
From Stdlib Require Import SpecFloat DecimalString Qround Qabs.
From stdpp Require Import gmap strings list fin_maps.

Open Scope string_scope.

(* ===================================================================== *)
(** ** Python strings *)
(* ===================================================================== *)

Module PyStr.

(** Strings as character lists, for the functions that scan them. *)
Definition chars (s : string) : list ascii := list_ascii_of_string s.
Definition str (l : list ascii) : string := string_of_list_ascii l.

(** [\d] on a code point below 256: the decimal digits. *)
Definition is_digit (a : ascii) : bool :=
  let n := nat_of_ascii a in (48 <=? n)%nat && (n <=? 57)%nat.

(** [\s] on a code point below 256, for a [str] pattern: the characters
    for which [str.isspace] holds. *)
Definition is_space (a : ascii) : bool :=
  let n := nat_of_ascii a in
  ((9 <=? n)%nat && (n <=? 13)%nat) || ((28 <=? n)%nat && (n <=? 32)%nat)
  || (n =? 133)%nat || (n =? 160)%nat.

Definition is_sign (a : ascii) : bool :=
  Ascii.eqb a "+"%char || Ascii.eqb a "-"%char.

Definition newline : ascii := ascii_of_nat 10.

Fixpoint zeros (n : nat) : string :=
  match n with
  | O => ""
  | S n' => String "0"%char (zeros n')
  end.

(** [s.zfill(width)]: zeros on the left up to [width]; a leading sign
    stays in front of the padding. *)
Definition zfill (width : nat) (s : string) : string :=
  let n := String.length s in
  if (width <=? n)%nat then s
  else match s with
       | String c s' =>
           if is_sign c then String c (zeros (width - n) +:+ s')
           else zeros (width - n) +:+ s
       | EmptyString => zeros width
       end.

(** [s.split(sep)] for a separator of one character: the fields between
    the occurrences of [sep]; always at least one field. *)
Fixpoint split_chars (sep : ascii) (l : list ascii) : list (list ascii) :=
  match l with
  | [] => [[]]
  | a :: l' =>
      if Ascii.eqb a sep then [] :: split_chars sep l'
      else match split_chars sep l' with
           | f :: fs => (a :: f) :: fs
           | [] => [[a]]
           end
  end.

Definition split (sep : ascii) (s : string) : list string :=
  map str (split_chars sep (chars s)).

(** [str(n)] for an integer. *)
Definition str_of_Z (z : Z) : string :=
  NilEmpty.string_of_int (Z.to_int z).

Fixpoint take_while {A} (p : A -> bool) (l : list A) : list A :=
  match l with
  | a :: l' => if p a then a :: take_while p l' else []
  | [] => []
  end.

Fixpoint drop_while {A} (p : A -> bool) (l : list A) : list A :=
  match l with
  | a :: l' => if p a then drop_while p l' else l
  | [] => []
  end.

(** [s.isascii()]: every character is below 128. *)
Definition isascii (s : string) : bool :=
  forallb (fun a => (nat_of_ascii a <? 128)%nat) (chars s).

(** [s.rstrip()]: the string without its trailing white space. *)
Definition rstrip (s : string) : string :=
  str (rev (drop_while is_space (rev (chars s)))).

End PyStr.

(* ===================================================================== *)
(** ** Regular expressions: the subset of Python's [re] the script uses *)
(* ===================================================================== *)

Module Re.
Import PyStr.

Inductive re : Type :=
| Empty                       (* the empty pattern *)
| Bos                         (* ^ *)
| Eos                         (* $ *)
| Lit (a : ascii)             (* one literal character *)
| Class (p : ascii -> bool)   (* \d, \s *)
| Cat (r1 r2 : re)            (* r1 r2 *)
| Or (r1 r2 : re)             (* r1|r2, leftmost alternative first *)
| Star (r : re)               (* r*, greedy *)
| Group (n : nat) (r : re).   (* the n-th capturing group *)

(** r?  (greedy: [r] is tried before the empty match). *)
Definition Opt (r : re) : re := Or r Empty.
(** r+ *)
Definition Plus (r : re) : re := Cat r (Star r).
(** r{n} *)
Fixpoint Rep (n : nat) (r : re) : re :=
  match n with
  | O => Empty
  | S n' => Cat r (Rep n' r)
  end.
(** r{1,2} *)
Definition Rep12 (r : re) : re := Cat r (Opt r).

Abbreviation captures := (gmap nat string).

(** A continuation receives the position reached, the rest of the input
    and the groups captured so far. *)
Definition cont := nat -> list ascii -> captures -> option captures.

(** The greedy loop of [r*]: one more iteration of the body first, the
    continuation when that fails.  An iteration has to consume input. *)
Fixpoint star_loop (step : cont -> cont) (k : cont) (fuel : nat) : cont :=
  fun pos s c =>
    match fuel with
    | O => k pos s c
    | S f =>
        match step (fun pos' s' c' =>
                      if (length s' <? length s)%nat
                      then star_loop step k f pos' s' c' else None)
                   pos s c with
        | Some x => Some x
        | None => k pos s c
        end
    end.

(** Backtracking matcher in continuation-passing style. *)
Fixpoint mt (r : re) : cont -> cont :=
  fun k pos s c =>
    match r with
    | Empty => k pos s c
    | Bos => if (pos =? 0)%nat then k pos s c else None
    | Eos =>
        match s with
        | [] => k pos s c
        | [a] => if Ascii.eqb a newline then k pos s c else None
        | _ => None
        end
    | Lit a =>
        match s with
        | x :: s' => if Ascii.eqb x a then k (S pos) s' c else None
        | [] => None
        end
    | Class p =>
        match s with
        | x :: s' => if p x then k (S pos) s' c else None
        | [] => None
        end
    | Cat r1 r2 => mt r1 (mt r2 k) pos s c
    | Or r1 r2 =>
        match mt r1 k pos s c with
        | Some x => Some x
        | None => mt r2 k pos s c
        end
    | Star r' => star_loop (mt r') k (S (length s)) pos s c
    | Group n r' =>
        mt r' (fun pos' s' c' =>
                 k pos' s' (<[n := str (take (pos' - pos) s)]> c'))
           pos s c
    end.

(** [pattern.match(string)]: a match anchored at the start of the
    string; [None] when there is none. *)
Definition re_match (r : re) (s : string) : option captures :=
  mt r (fun _ _ c => Some c) 0%nat (chars s) ∅.

(** [match.group(n)]. *)
Definition group (m : captures) (n : nat) : option string := m !! n.

Definition digit : re := Class is_digit.
Definition space : re := Class is_space.

End Re.

(* ===================================================================== *)
(** ** The FITS header, the opened file and the effects of an edit step *)
(* ===================================================================== *)

(** A header value: a string, an integer or a floating-point number. *)
Inductive hval : Type :=
| VStr (s : string)
| VInt (z : Z)
| VFloat (f : float).

(** The primary header [fits[0].header], a mapping from keyword to value.
    Every keyword the script uses is an upper-case literal. *)
Abbreviation header := (gmap string hval).

(** The exceptions an edit step can raise.  [KeyError] carries the missing
    keyword; [LibraryError] stands for an exception raised inside
    [astropy.time] by an operation on a time that was read (an
    [ErfaError] on a date out of range, for one): none of them is a
    [KeyError]. *)
Inductive exn : Type :=
| KeyError (k : string)
| ValueError
| AttributeError
| OverflowError
| LibraryError.

(** The opened file: the header in memory, the header last written to the
    file, and the lines printed so far. *)
Record world : Type := World {
  hdr : header;
  disk : header;
  out : list string
}.

Definition set_hdr (h : header) (w : world) : world :=
  {| hdr := h; disk := disk w; out := out w |}.

(** A computation either returns a value or raises; the world it leaves
    behind keeps every mutation made before the exception. *)
Definition M (A : Type) : Type := world -> (exn + A) * world.

Definition ret {A} (a : A) : M A := fun w => (inr a, w).

Definition bind {A B} (m : M A) (k : A -> M B) : M B :=
  fun w => match m w with
           | (inr a, w') => k a w'
           | (inl e, w') => (inl e, w')
           end.

Definition raise {A} (e : exn) : M A := fun w => (inl e, w).

Notation "x <- c1 ;; c2" := (bind c1 (fun x => c2))
  (at level 100, c1 at next level, c2 at level 200, right associativity).
Notation "c1 ;; c2" := (bind c1 (fun _ => c2))
  (at level 100, c2 at level 200, right associativity).

(** [print(line)] *)
Definition print (line : string) : M unit :=
  fun w => (inr tt, {| hdr := hdr w; disk := disk w; out := out w ++ [line] |}).

(** [if cond: body] *)
Definition when (cond : bool) (body : M unit) : M unit :=
  if cond then body else ret tt.

(** [key in header] *)
Definition contains (k : string) : M bool :=
  fun w => (inr (bool_decide (is_Some (hdr w !! k))), w).

(** [header[key]]: a missing keyword raises [KeyError]. *)
Definition getitem (k : string) : M hval :=
  fun w => match hdr w !! k with
           | Some v => (inr v, w)
           | None => (inl (KeyError k), w)
           end.

(** The characters a string value of a header may hold: the printable
    ASCII characters, from the blank to the tilde. *)
Definition printable (a : ascii) : bool :=
  let n := nat_of_ascii a in (32 <=? n)%nat && (n <=? 126)%nat.

(** The values [header[key] = value] accepts: a string of printable
    characters, an integer, a float that is neither an infinity nor a
    NaN.  For the others the assignment raises [ValueError]. *)
Definition assignable (v : hval) : bool :=
  match v with
  | VStr s => forallb printable (PyStr.chars s)
  | VInt _ => true
  | VFloat f => PrimFloat.is_finite f
  end.

(** The value that is read back after an assignment: a string comes back
    without its trailing blanks. *)
Definition as_stored (v : hval) : hval :=
  match v with
  | VStr s => VStr (PyStr.rstrip s)
  | _ => v
  end.

(** [header[key] = value]: overwrites the keyword or adds it; a value
    that is not [assignable] raises [ValueError] and changes nothing. *)
Definition setitem (k : string) (v : hval) : M unit :=
  fun w => if assignable v
           then (inr tt, set_hdr (<[k := as_stored v]> (hdr w)) w)
           else (inl ValueError, w).

(** [del header[key]]: a missing keyword raises [KeyError]. *)
Definition delitem (k : string) : M unit :=
  fun w => match hdr w !! k with
           | Some _ => (inr tt, set_hdr (delete k (hdr w)) w)
           | None => (inl (KeyError k), w)
           end.

(** [fits.flush()]: the header in memory is written to the file. *)
Definition flush : M unit :=
  fun w => (inr tt, {| hdr := hdr w; disk := hdr w; out := out w |}).

(** [str(e)] for the [KeyError] of a header lookup. *)
Definition dquote : string := String (ascii_of_nat 34) "".
Definition str_of_exn (e : exn) : string :=
  match e with
  | KeyError k => dquote +:+ "Keyword '" +:+ k +:+ "' not found." +:+ dquote
  | ValueError => "ValueError"
  | AttributeError => "AttributeError"
  | OverflowError => "OverflowError"
  | LibraryError => "LibraryError"
  end.

(* ===================================================================== *)
(** ** Interfaces of the libraries the script calls *)
(* ===================================================================== *)

(** Python's [float] on a string and [repr] of a float.  [None] stands for
    the [ValueError] of a string that is not a number. *)
Class PyFloat : Type := {
  float_of_str : string -> option float;
  float_repr : float -> string
}.

(** [astropy.time]: [Time(s, scale='utc', format='isot')] ([None] for the
    [ValueError] of a string that is not an ISO date-time), the sum of a
    time and [TimeDelta(x, format='sec')], and the attributes [isot] and
    [jd]; for these three [None] stands for an exception of the library
    ([LibraryError]).  The interface fixes which operation is called on
    what; the arithmetic of times is the library's. *)
Class TimeLib : Type := {
  Time : Type;
  Time_of_isot : string -> option Time;
  Time_add_sec : Time -> float -> option Time;
  Time_isot : Time -> option string;
  Time_jd : Time -> option float
}.

(** The command-line options, as [optparse] stores them. *)
Module Options.
Record t : Type := Make {
  airmass : option string;
  calstat : option string;
  iris_dateobs : option string;
  dec : option string;
  exp_time : string;
  filter : option string;
  use_midpoint_for_dateobs : bool;
  adjust_time : bool;
  object : option string;
  ra : option string;
  tz_offset : string;
  verbose : bool
}.

(** The defaults of [get_opts_and_args]. *)
Definition default : t :=
  {| airmass := None; calstat := None; iris_dateobs := None; dec := None;
     exp_time := "0.0"; filter := None; use_midpoint_for_dateobs := false;
     adjust_time := false; object := None; ra := None; tz_offset := "0.0";
     verbose := false |}.
End Options.

(* ===================================================================== *)
(** ** The script: modify-fits-header.py *)
(* ===================================================================== *)

Section Script.
Context `{PF : PyFloat} `{TL : TimeLib}.
Import PyStr Re.

(** [str(v)], as [str.format] renders a header value. *)
Definition py_str (v : hval) : string :=
  match v with
  | VStr s => s
  | VInt z => str_of_Z z
  | VFloat f => float_repr f
  end.

(** [str.format] on a value that may be [None]. *)
Definition py_str_opt (v : option hval) : string :=
  match v with
  | Some v => py_str v
  | None => "None"
  end.

Definition str_or_None (s : option string) : string :=
  match s with
  | Some s => s
  | None => "None"
  end.

(** [float(n)] for an integer: the nearest float; an integer beyond the
    range of a float raises [OverflowError]. *)
Definition float_of_Z (z : Z) : option float :=
  match binary_normalize prec emax z 0 false with
  | S754_infinity _ => None
  | sf => Some (SF2Prim sf)
  end.

(** [float(s)] for the string of an option. *)
Definition pyfloat_str (s : string) : M float :=
  match float_of_str s with
  | Some f => ret f
  | None => raise ValueError
  end.

(** [float(v)] for a header value. *)
Definition pyfloat (v : hval) : M float :=
  match v with
  | VStr s => pyfloat_str s
  | VInt z => match float_of_Z z with
              | Some f => ret f
              | None => raise OverflowError
              end
  | VFloat f => ret f
  end.

(** [v.split(sep)]: only a string has the method. *)
Definition str_split (v : hval) (sep : ascii) : M (list string) :=
  match v with
  | VStr s => ret (split sep s)
  | _ => raise AttributeError
  end.

(** The result of an operation of [astropy.time] on a time. *)
Definition library {A} (x : option A) : M A :=
  match x with
  | Some a => ret a
  | None => raise LibraryError
  end.

(** [Time(v, scale='utc', format='isot')] *)
Definition Time_new (v : hval) : M Time :=
  match v with
  | VStr s => match Time_of_isot s with
              | Some t => ret t
              | None => raise ValueError
              end
  | _ => raise ValueError
  end.

(** The pattern ["^\s*(\d{4})\-(\d{1,2})\-(\d{1,2})\s*$"]. *)
Definition iris_pattern : re :=
  Cat Bos (Cat (Star space)
    (Cat (Group 1 (Rep 4 digit)) (Cat (Lit "-")
    (Cat (Group 2 (Rep12 digit)) (Cat (Lit "-")
    (Cat (Group 3 (Rep12 digit))
    (Cat (Star space) Eos))))))).

(** The pattern ["^\s*(({0})?\d+):(\d+):(\d+(\.\d+)?)\s*$"] with the
    prefix pattern in the place of [{0}]. *)
Definition hd_m_s_pattern (prefix : re) : re :=
  Cat Bos (Cat (Star space)
    (Cat (Group 1 (Cat (Opt (Group 2 prefix)) (Plus digit))) (Cat (Lit ":")
    (Cat (Group 3 (Plus digit)) (Cat (Lit ":")
    (Cat (Group 4 (Cat (Plus digit)
                       (Opt (Group 5 (Cat (Lit ".") (Plus digit))))))
    (Cat (Star space) Eos))))))).

(** The prefix of [set_ra], [""], and the default prefix, ["\-|\+"]. *)
Definition prefix_none : re := Empty.
Definition prefix_sign : re := Or (Lit "-") (Lit "+").

Definition get_hd_m_s_str (input : string) (prefix : re) : option string :=
  match re_match (hd_m_s_pattern prefix) input with
  | Some m =>
      Some (str_or_None (group m 1) +:+ " " +:+ str_or_None (group m 3)
            +:+ " " +:+ str_or_None (group m 4))
  | None => None
  end.

Definition optionally_set_iris_dateobs (o : Options.t) (arg : string)
  : M unit :=
  match Options.iris_dateobs o with
  | Some opt =>
      match re_match iris_pattern opt with
      | Some m =>
          let iris_dateobs :=
            zfill 2 (str_or_None (group m 3)) +:+ "/"
            +:+ zfill 2 (str_or_None (group m 2)) +:+ "/"
            +:+ zfill 4 (str_or_None (group m 1)) in
          has <- contains "DATE-OBS" ;;
          dateobs <- (if has then v <- getitem "DATE-OBS" ;; ret (Some v)
                      else ret None) ;;
          setitem "DATE-OBS" (VStr iris_dateobs) ;;
          flush ;;
          when (Options.verbose o)
            (print (arg +:+ ": " +:+ py_str_opt dateobs +:+ " [initial]") ;;
             print (arg +:+ ": " +:+ iris_dateobs +:+ " [adjusted]"))
      | None => print ("format of " +:+ opt +:+ " not yyyy-mm-dd")
      end
  | None => ret tt
  end.

Definition extract_full_dateobs (arg : string) : M (option hval) :=
  has_ut <- contains "UT-START" ;;
  has_do <- contains "DATE-OBS" ;;
  if has_ut && has_do then
    utstart <- getitem "UT-START" ;;
    dateobs <- getitem "DATE-OBS" ;;
    date_fields <- str_split dateobs "/" ;;
    match date_fields with
    | [dd; mm; yyyy] =>
        delitem "UT-START" ;;
        ret (Some (VStr (yyyy +:+ "-" +:+ mm +:+ "-" +:+ dd +:+ "T"
                         +:+ py_str utstart)))
    | _ =>
        print (arg +:+ ": DATE-OBS format not DD/MM/YYYY") ;;
        ret None
    end
  else if has_do then
    v <- getitem "DATE-OBS" ;;
    ret (Some v)
  else
    print (arg +:+ " does not contain DATE-OBS keyword") ;;
    ret None.

Definition set_times (o : Options.t) (arg : string) : M unit :=
  if negb (Options.adjust_time o) then ret tt
  else
    full_dateobs <- extract_full_dateobs arg ;;
    match full_dateobs with
    | None => ret tt
    | Some full =>
        initial_t <- Time_new full ;;
        when (Options.verbose o)
          (start <- library (Time_isot initial_t) ;;
           print (arg +:+ ": " +:+ start +:+ " [start]")) ;;
        tz_offset <- pyfloat_str (Options.tz_offset o) ;;
        adjusted_t <-
          library (Time_add_sec initial_t (tz_offset * 60 * 60)%float) ;;
        exp_time0 <- pyfloat_str (Options.exp_time o) ;;
        has <- contains "EXPTIME" ;;
        exp_time <- (if PrimFloat.eqb exp_time0 0 && has
                     then v <- getitem "EXPTIME" ;; pyfloat v
                     else ret exp_time0) ;;
        midpoint_t <-
          library (Time_add_sec adjusted_t (exp_time / 2)%float) ;;
        new_date_obs <-
          (if Options.use_midpoint_for_dateobs o
           then print (arg +:+ ": using midpoint for DATE-OBS") ;;
                library (Time_isot midpoint_t)
           else library (Time_isot adjusted_t)) ;;
        setitem "DATE-OBS" (VStr new_date_obs) ;;
        when (Options.verbose o)
          (print (arg +:+ ": " +:+ new_date_obs +:+ " [adjusted]")) ;;
        midpoint <- library (Time_isot midpoint_t) ;;
        setitem "MIDPOINT" (VStr midpoint) ;;
        when (Options.verbose o)
          (midpoint' <- library (Time_isot midpoint_t) ;;
           print (arg +:+ ": " +:+ midpoint' +:+ " [midpoint]")) ;;
        jd <- library (Time_jd midpoint_t) ;;
        setitem "JD" (VFloat jd) ;;
        when (Options.verbose o)
          (jd' <- library (Time_jd midpoint_t) ;;
           print (arg +:+ ": " +:+ float_repr jd' +:+ " [JD]"))
    end.

Definition set_object (o : Options.t) (arg : string) : M unit :=
  match Options.object o with
  | Some obj =>
      setitem "OBJECT" (VStr obj) ;;
      when (Options.verbose o)
        (print (arg +:+ ": Set object to " +:+ obj))
  | None => ret tt
  end.

(** The assignment and the message are in the [else] branch of the
    source, after [old_filter = None]. *)
Definition set_filter (o : Options.t) (arg : string) : M unit :=
  match Options.filter o with
  | Some f =>
      has <- contains "FILTER" ;;
      if has then
        old_filter <- getitem "FILTER" ;;
        ret tt
      else
        let old_filter : option hval := None in
        setitem "FILTER" (VStr f) ;;
        when (Options.verbose o)
          (print (arg +:+ ": Filter changed from " +:+ py_str_opt old_filter
                  +:+ " to " +:+ f))
  | None => ret tt
  end.

Definition set_airmass (o : Options.t) (arg : string) : M unit :=
  match Options.airmass o with
  | Some a =>
      setitem "AIRMASS" (VStr a) ;;
      when (Options.verbose o)
        (print (arg +:+ ": Set airmass to " +:+ a))
  | None => ret tt
  end.

(** The list [["B", "BD", "BF", "DF", "BDF"]]. *)
Definition calstat_values : list string := ["B"; "BD"; "BF"; "DF"; "BDF"].

Definition set_calstat (o : Options.t) (arg : string) : M unit :=
  match Options.calstat o with
  | Some c =>
      if negb (bool_decide (c ∈ calstat_values)) then
        print (arg +:+ ": CALSTAT must be one of B, BD, BF, DF, BDF")
      else
        setitem "CALSTAT" (VStr c) ;;
        when (Options.verbose o)
          (print (arg +:+ ": Set calstat to " +:+ c))
  | None => ret tt
  end.

Definition set_ra (o : Options.t) (arg : string) : M unit :=
  match Options.ra o with
  | Some ra =>
      match get_hd_m_s_str ra prefix_none with
      | Some h_m_s =>
          setitem "RA" (VStr h_m_s) ;;
          when (Options.verbose o)
            (print (arg +:+ ": Set RA to " +:+ ra))
      | None => print (arg +:+ ": Invalid RA '" +:+ ra +:+ "'")
      end
  | None => ret tt
  end.

Definition set_dec (o : Options.t) (arg : string) : M unit :=
  match Options.dec o with
  | Some dec =>
      match get_hd_m_s_str dec prefix_sign with
      | Some d_m_s =>
          setitem "DEC" (VStr d_m_s) ;;
          when (Options.verbose o)
            (print (arg +:+ ": Set DEC to " +:+ dec))
      | None => print (arg +:+ ": Invalid DEC '" +:+ dec +:+ "'")
      end
  | None => ret tt
  end.

(** The statements of a [try] block, run in order; an exception ends the
    block at the statement that raised it. *)
Fixpoint run_steps (steps : list (M unit)) : M unit :=
  match steps with
  | [] => ret tt
  | s :: rest => s ;; run_steps rest
  end.

(** [try: body  except KeyError as e: print("** Error: {0}".format(e))].
    Any other exception propagates. *)
Definition try_except_KeyError (body : M unit) : M unit :=
  fun w => match body w with
           | (inl (KeyError k), w') =>
               print ("** Error: " +:+ str_of_exn (KeyError k)) w'
           | r => r
           end.

(** What [main] does with an opened file and a list of edit steps: the
    guarded block, then [fits.flush()] ([fits.close()] follows and
    writes nothing more). *)
Definition run_file (steps : list (M unit)) : M unit :=
  try_except_KeyError (run_steps steps) ;;
  flush.

(** The edit steps of [main], in the order of the source. *)
Definition edit_steps (o : Options.t) (arg : string) : list (M unit) :=
  [ optionally_set_iris_dateobs o arg;
    set_times o arg;
    set_object o arg;
    set_filter o arg;
    set_airmass o arg;
    set_calstat o arg;
    set_ra o arg;
    set_dec o arg ].

(** The body of the loop of [main] for a file that was opened. *)
Definition process_file (o : Options.t) (arg : string) : M unit :=
  run_file (edit_steps o arg).

(** [fitsio.open(arg, mode="update")] on a file whose header is [d]. *)
Definition opened (d : header) : world :=
  {| hdr := d; disk := d; out := [] |}.

(** One run of the script on a file with header [d]: the header the
    file holds afterwards.  When an exception escapes, the file keeps
    what the last [flush] wrote. *)
Definition file_after (o : Options.t) (arg : string) (d : header) : header :=
  disk (snd (process_file o arg (opened d))).

End Script.

(* ===================================================================== *)
(** ** A reference instance of the library interfaces *)
(* ===================================================================== *)

(** An executable instance of [PyFloat] and [TimeLib], to run the script
    on concrete files.  Floats are read and printed through their exact
    rational value.  Times are exact rational counts of seconds, in the
    proleptic Gregorian calendar with the leap seconds of UTC from 1972
    on.  The instance is meant for ordinary dates and offsets: it
    computes exactly where the library computes with pairs of floats, and
    before 1972, where the library lets the second of UTC drift against
    atomic time, it counts plain seconds. *)
Module Ref.
Import PyStr.

Definition digit_val (a : ascii) : Z := Z.of_nat (nat_of_ascii a) - 48.

(** The number written by a list of decimal digits. *)
Definition digits_val (l : list ascii) : Z :=
  fold_left (fun acc a => 10 * acc + digit_val a)%Z l 0%Z.

Definition all_digits (l : list ascii) : bool :=
  forallb is_digit l && negb (Nat.eqb (length l) 0).

(** The exact value of a finite float. *)
Definition Q_of_float (f : float) : option Q :=
  match Prim2SF f with
  | S754_zero _ => Some 0%Q
  | S754_finite s m e =>
      Some (Qred ((if s then -1 else 1) * inject_Z (Zpos m)
                  * Qpower 2 e)%Q)
  | _ => None
  end.

(** The float nearest to [n/d] (ties to even): the quotient is taken with
    at least 55 bits and one more bit that records a remainder. *)
Definition round_pos (s : bool) (n d : positive) : spec_float :=
  let k := Z.max 0 (Z.log2 (Zpos d) - Z.log2 (Zpos n) + 56) in
  let num := (Zpos n * 2 ^ k)%Z in
  let q := (num / Zpos d)%Z in
  let r := (num mod Zpos d)%Z in
  let m := (2 * q + (if (r =? 0)%Z then 0 else 1))%Z in
  binary_round prec emax s (Z.to_pos m) (- k - 1).

Definition round_Q (q : Q) : float :=
  match Qnum q with
  | Z0 => PrimFloat.zero
  | Zpos n => SF2Prim (round_pos false n (Qden q))
  | Zneg n => SF2Prim (round_pos true n (Qden q))
  end.

Definition strip (l : list ascii) : list ascii :=
  rev (drop_while is_space (rev (drop_while is_space l))).
Arguments strip : simpl never.

Definition lower (a : ascii) : ascii :=
  let n := nat_of_ascii a in
  if (65 <=? n)%nat && (n <=? 90)%nat then ascii_of_nat (n + 32) else a.

(** A run of digits in which single underscores may stand between two
    digits: the digits, and what follows the run. *)
Fixpoint digit_run (l : list ascii) : list ascii * list ascii :=
  match l with
  | a :: l' =>
      if is_digit a then
        match l' with
        | u :: l'' =>
            if Ascii.eqb u "_"%char then
              match l'' with
              | b :: _ =>
                  if is_digit b
                  then let '(ds, r) := digit_run l'' in (a :: ds, r)
                  else ([a], l')
              | [] => ([a], l')
              end
            else let '(ds, r) := digit_run l' in (a :: ds, r)
        | [] => ([a], [])
        end
      else ([], l)
  | [] => ([], [])
  end.

(** The exponent part: nothing, or [e] or [E], an optional sign and a run
    of digits up to the end. *)
Definition exponent (l : list ascii) : option Z :=
  match l with
  | [] => Some 0%Z
  | e :: l1 =>
      if Ascii.eqb (lower e) "e"%char then
        let '(neg, l2) :=
          match l1 with
          | a :: l' => if Ascii.eqb a "-"%char then (true, l')
                       else if Ascii.eqb a "+"%char then (false, l')
                       else (false, l1)
          | [] => (false, l1)
          end in
        match digit_run l2 with
        | ((_ :: _) as ds, []) =>
            Some (if neg then (- digits_val ds)%Z else digits_val ds)
        | _ => None
        end
      else None
  end.

(** The float nearest to [n * 10^x], for [n > 0].  With [b] the binary
    logarithm of [n], the number is at least [2^(b + 3x)] for [x >= 0]
    and [2^(b + 4x)] for [x < 0], and below [2^(b + 1 + 3x)] for [x < 0]:
    from [2^1025] on the float is an infinity, up to [2^-1076] a zero. *)
Definition scale10 (n x : Z) : float :=
  let b := Z.log2 n in
  if (1025 <=? b + (if 0 <=? x then 3 else 4) * x)%Z then PrimFloat.infinity
  else if (x <? 0)%Z && (b + 1 + 3 * x <=? -1076)%Z then PrimFloat.zero
  else round_Q (Qred (inject_Z n * Qpower 10 x)).

(** [float(s)]: optional surrounding white space, an optional sign, and
    either [inf], [infinity] or [nan] in any case, or a decimal number
    with an optional fraction and an optional exponent, whose digits may
    be grouped with underscores.  [None] is the [ValueError] of any other
    string. *)
Definition read_float (s : string) : option float :=
  let l := strip (chars s) in
  let '(neg, l) :=
    match l with
    | a :: l' => if Ascii.eqb a "-"%char then (true, l')
                 else if Ascii.eqb a "+"%char then (false, l')
                 else (false, l)
    | [] => (false, l)
    end in
  let signed f := if neg then (- f)%float else f in
  let word := str (map lower l) in
  if String.eqb word "inf" || String.eqb word "infinity"
  then Some (signed PrimFloat.infinity)
  else if String.eqb word "nan" then Some PrimFloat.nan
  else
    let '(ip, r1) := digit_run l in
    let '(fp, r2) :=
      match r1 with
      | a :: fr => if Ascii.eqb a "."%char then digit_run fr else ([], r1)
      | [] => ([], r1)
      end in
    if negb (Nat.eqb (length ip + length fp) 0) then
      match exponent r2 with
      | Some x =>
          let n := digits_val (ip ++ fp) in
          if (n =? 0)%Z then Some (signed PrimFloat.zero)
          else Some (signed (scale10 n (x - Z.of_nat (length fp))))
      | None => None
      end
    else None.

(** Rounding of a rational to the nearest integer, ties upwards. *)
Definition round_hu (q : Q) : Z := Qfloor (q + (1 # 2)).

(** Rounding of a rational to the nearest integer, ties to even. *)
Definition round_he (q : Q) : Z :=
  let f := Qfloor q in
  match Qcompare (q - inject_Z f) (1 # 2) with
  | Lt => f
  | Gt => (f + 1)%Z
  | Eq => if Z.even f then f else (f + 1)%Z
  end.

Fixpoint ndigits_aux (fuel : nat) (z : Z) : Z :=
  match fuel with
  | O => 0
  | S f => if (z <? 10)%Z then 1 else (1 + ndigits_aux f (z / 10))%Z
  end.

(** The number of decimal digits of a positive integer. *)
Definition ndigits (z : Z) : Z := ndigits_aux (S (Z.to_nat (Z.log2 z))) z.

(** For [q > 0], the exponent [E] with [10^(E-1) <= q < 10^E]. *)
Definition decade (q : Q) : Z :=
  let est := (ndigits (Qnum q) - ndigits (Zpos (Qden q)))%Z in
  if Qle_bool (Qpower 10 est) q then (est + 1)%Z else est.

Definition Qabs_diff (a b : Q) : Q := Qabs (a - b).

(** The integer [c] of [p] digits and the exponent [e] such that
    [c * 10^e] reads back as the float of value [q > 0], nearest to [q];
    [None] when no decimal of [p] digits reads back. *)
Definition shortest_at (f : float) (q : Q) (p : Z) : option (Z * Z) :=
  let e := (decade q - p)%Z in
  let d := round_he (q / Qpower 10 e) in
  let reads c := (0 <? c)%Z
                 && PrimFloat.eqb (round_Q (Qred (inject_Z c * Qpower 10 e))) f in
  let dist c := Qabs_diff (inject_Z c * Qpower 10 e) q in
  let better c best :=
    if reads c then
      match best with
      | Some b => if Qle_bool (dist b) (dist c) then Some b else Some c
      | None => Some c
      end
    else best in
  match better (d + 1)%Z (better (d - 1)%Z (better d None)) with
  | Some c => Some (c, e)
  | None => None
  end.

Fixpoint shortest_from (fuel : nat) (f : float) (q : Q) (p : Z)
  : option (Z * Z) :=
  match fuel with
  | O => None
  | S fuel' =>
      match shortest_at f q p with
      | Some r => Some r
      | None => shortest_from fuel' f q (p + 1)
      end
  end.

Fixpoint strip_zeros (fuel : nat) (c e : Z) : Z * Z :=
  match fuel with
  | O => (c, e)
  | S fuel' => if (c mod 10 =? 0)%Z then strip_zeros fuel' (c / 10)%Z (e + 1)%Z
               else (c, e)
  end.

(** [repr] of a positive finite float: the shortest digits that read
    back, in fixed notation when the decimal point falls within
    [-4 < decpt <= 16] and with an exponent otherwise. *)
Definition repr_pos (f : float) (q : Q) : string :=
  match shortest_from 17 f q 1 with
  | None => "?"
  | Some (c0, e0) =>
      let '(c, e) := strip_zeros 17 c0 e0 in
      let ds := str_of_Z c in
      let n := Z.of_nat (String.length ds) in
      let decpt := (n + e)%Z in
      if (decpt <=? -4)%Z || (16 <? decpt)%Z then
        let x := (decpt - 1)%Z in
        let mant := match ds with
                    | String a EmptyString => ds
                    | String a rest => String a ("." +:+ rest)
                    | EmptyString => ds
                    end in
        mant +:+ "e" +:+ (if (x <? 0)%Z then "-" else "+")
             +:+ zfill 2 (str_of_Z (Z.abs x))
      else if (decpt <=? 0)%Z then
        "0." +:+ zeros (Z.to_nat (- decpt)) +:+ ds
      else if (n <=? decpt)%Z then
        ds +:+ zeros (Z.to_nat (decpt - n)) +:+ ".0"
      else
        substring 0 (Z.to_nat decpt) ds +:+ "."
        +:+ substring (Z.to_nat decpt) (Z.to_nat (n - decpt)) ds
  end.

Definition show_float (f : float) : string :=
  match Prim2SF f with
  | S754_nan => "nan"
  | S754_infinity s => if s then "-inf" else "inf"
  | S754_zero s => if s then "-0.0" else "0.0"
  | S754_finite s m e =>
      let q := Qred (inject_Z (Zpos m) * Qpower 2 e) in
      (if s then "-" else "") +:+ repr_pos (PrimFloat.abs f) q
  end.

#[export] Instance py_float : PyFloat :=
  {| float_of_str := read_float;
     float_repr := show_float |}.

(** *** Civil time *)

Definition is_leap (y : Z) : bool :=
  ((y mod 4 =? 0) && negb (y mod 100 =? 0) || (y mod 400 =? 0))%Z.

Definition days_in_month (y m : Z) : Z :=
  if (m =? 2)%Z then (if is_leap y then 29 else 28)
  else if ((m =? 4) || (m =? 6) || (m =? 9) || (m =? 11))%Z then 30
  else 31.

(** Days from 1970-01-01 to the given date. *)
Definition days_from_civil (y m d : Z) : Z :=
  let y' := if (m <=? 2)%Z then (y - 1)%Z else y in
  let era := (y' / 400)%Z in
  let yoe := (y' - era * 400)%Z in
  let mp := ((m + 9) mod 12)%Z in
  let doy := ((153 * mp + 2) / 5 + d - 1)%Z in
  let doe := (yoe * 365 + yoe / 4 - yoe / 100 + doy)%Z in
  (era * 146097 + doe - 719468)%Z.

(** The date that lies [z] days after 1970-01-01. *)
Definition civil_from_days (z : Z) : Z * Z * Z :=
  let z := (z + 719468)%Z in
  let era := (z / 146097)%Z in
  let doe := (z - era * 146097)%Z in
  let yoe := ((doe - doe / 1460 + doe / 36524 - doe / 146096) / 365)%Z in
  let y := (yoe + era * 400)%Z in
  let doy := (doe - (365 * yoe + yoe / 4 - yoe / 100))%Z in
  let mp := ((5 * doy + 2) / 153)%Z in
  let d := (doy - (153 * mp + 2) / 5 + 1)%Z in
  let m := if (mp <? 10)%Z then (mp + 3)%Z else (mp - 9)%Z in
  (if (m <=? 2)%Z then (y + 1)%Z else y, m, d).

(** A field of one or two digits below [bound]. *)
Definition field2 (l : list ascii) (lo bound : Z) : option Z :=
  if all_digits l && (length l <=? 2)%nat then
    let v := digits_val l in
    if ((lo <=? v) && (v <? bound))%Z then Some v else None
  else None.

(** Seconds with an optional fraction, as a rational; the seconds go up
    to 61, as in [time.strptime]. *)
Definition seconds_field (l : list ascii) : option Q :=
  match split_chars "."%char l with
  | [ip] => option_map inject_Z (field2 ip 0 62)
  | [ip; fp] =>
      match field2 ip 0 62 with
      | Some v =>
          if all_digits fp then
            Some (Qred (inject_Z v
                        + (digits_val fp # Z.to_pos (10 ^ Z.of_nat (length fp)))))
          else None
      | None => None
      end
  | _ => None
  end.

Definition date_field (l : list ascii) : option Z :=
  match split_chars "-"%char l with
  | [y; m; d] =>
      if all_digits y && (length y =? 4)%nat then
        match field2 m 1 13 with
        | Some mv =>
            match field2 d 1 (days_in_month (digits_val y) mv + 1) with
            | Some dv => Some (days_from_civil (digits_val y) mv dv)
            | None => None
            end
        | None => None
        end
      else None
  | _ => None
  end.

Definition time_field (l : list ascii) : option Q :=
  match split_chars ":"%char l with
  | [h; m] =>
      match field2 h 0 24, field2 m 0 60 with
      | Some hv, Some mv => Some (inject_Z (hv * 3600 + mv * 60))
      | _, _ => None
      end
  | [h; m; sec] =>
      match field2 h 0 24, field2 m 0 60, seconds_field sec with
      | Some hv, Some mv, Some sv =>
          Some (Qred (inject_Z (hv * 3600 + mv * 60) + sv))
      | _, _, _ => None
      end
  | _ => None
  end.

(** The days, counted from 1970-01-01, that begin after a leap second:
    1 July 1972, 1 January 1973, ..., 1 January 2017. *)
Definition leap_days : list Z :=
  map (fun '(y, m) => days_from_civil y m 1)
    [ (1972, 7); (1973, 1); (1974, 1); (1975, 1); (1976, 1); (1977, 1);
      (1978, 1); (1979, 1); (1980, 1); (1981, 7); (1982, 7); (1983, 7);
      (1985, 7); (1988, 1); (1990, 1); (1991, 1); (1992, 7); (1993, 7);
      (1994, 7); (1996, 1); (1997, 7); (1999, 1); (2006, 1); (2009, 1);
      (2012, 7); (2015, 7); (2017, 1) ]%Z.

(** The second at which day [d] begins, every leap second counted. *)
Definition day_start (d : Z) : Z :=
  (d * 86400
   + Z.of_nat (length (filter (fun x => (x <=? d)%Z) leap_days)))%Z.

(** 86400 seconds, or 86401 when the day ends with a leap second. *)
Definition day_length (d : Z) : Z := (day_start (d + 1) - day_start d)%Z.

(** A time is its exact count of seconds since 1970-01-01T00:00:00. *)
Definition time : Type := Q.

(** The day a time falls in. *)
Definition day_of (t : time) : Z :=
  let d := Qfloor (t / 86400) in
  if Qle_bool (inject_Z (day_start d)) t then d else (d - 1)%Z.

(** Without the [Z] that may end a time in UTC. *)
Definition without_Z (l : list ascii) : list ascii :=
  match rev l with
  | a :: l' => if Ascii.eqb a "Z"%char then rev l' else l
  | [] => l
  end.

(** [Time(s, scale='utc', format='isot')] for the forms
    [YYYY-MM-DD], [YYYY-MM-DDTHH:MM] and [YYYY-MM-DDTHH:MM:SS[.f]], month,
    day, hour, minute and second of one or two digits, with an optional
    [Z] at the end. *)
Definition of_isot (s : string) : option time :=
  match split_chars "T"%char (without_Z (chars s)) with
  | [d] => option_map (fun n => inject_Z (day_start n)) (date_field d)
  | [d; t] =>
      match date_field d, time_field t with
      | Some n, Some q => Some (Qred (inject_Z (day_start n) + q))
      | _, _ => None
      end
  | _ => None
  end.

(** The Julian Date of a time, as a rational: 2440587.5 at
    1970-01-01T00:00:00, and the fraction of the day counted in the
    length of that day. *)
Definition jd_exact (t : time) : Q :=
  let d := day_of t in
  Qred (inject_Z d + (t - inject_Z (day_start d)) / inject_Z (day_length d)
        + (24405875 # 10)).

(** The dates the library converts: Julian Dates from -68569.5 to 1e9. *)
Definition in_range (t : time) : bool :=
  Qle_bool (- (685695 # 10)) (jd_exact t)
  && Qle_bool (jd_exact t) 1000000000.

(** [t + TimeDelta(x, format='sec')].  A sum out of the range of dates
    and a delta that is not finite are outside this instance, which
    answers [None] for them. *)
Definition add_sec (t : time) (x : float) : option time :=
  match Q_of_float x with
  | Some q => let t' := Qred (t + q) in
              if in_range t' then Some t' else None
  | None => None
  end.

Definition pad (w : nat) (z : Z) : string := zfill w (str_of_Z z).

(** [t.isot]: the date and time to the nearest millisecond; a leap
    second is the second 60 of the last minute of its day. *)
Definition isot (t : time) : string :=
  let ms := round_hu (t * 1000) in
  let days := day_of (ms # 1000) in
  let r := (ms - day_start days * 1000)%Z in
  let hh := Z.min (r / 3600000) 23 in
  let mm := Z.min ((r - hh * 3600000) / 60000) 59 in
  let s := (r - hh * 3600000 - mm * 60000)%Z in
  let '(y, m, d) := civil_from_days days in
  pad 4 y +:+ "-" +:+ pad 2 m +:+ "-" +:+ pad 2 d +:+ "T"
  +:+ pad 2 hh +:+ ":" +:+ pad 2 mm +:+ ":"
  +:+ pad 2 (s / 1000) +:+ "." +:+ pad 3 (s mod 1000).

(** [t.jd]: the Julian Date as a float. *)
Definition jd (t : time) : float := round_Q (jd_exact t).

#[export] Instance civil_time : TimeLib :=
  {| Time := time;
     Time_of_isot := of_isot;
     Time_add_sec := add_sec;
     Time_isot := fun t => Some (isot t);
     Time_jd := fun t => Some (jd t) |}.
End Ref.


(* ===================================================================== *)
(** ** Concrete options and files *)
(* ===================================================================== *)

(** Options and headers on which the script is run below. *)
Module Ex.

(** [--iris-dateobs 2023-13-40] *)
Definition o_iris_13_40 : Options.t :=
  {| Options.airmass := None; Options.calstat := None;
     Options.iris_dateobs := Some "2023-13-40"; Options.dec := None;
     Options.exp_time := "0.0"; Options.filter := None;
     Options.use_midpoint_for_dateobs := false; Options.adjust_time := false;
     Options.object := None; Options.ra := None; Options.tz_offset := "0.0";
     Options.verbose := false |}.

(** [--iris-dateobs " 2020-1-5"] *)
Definition o_iris_short : Options.t :=
  {| Options.airmass := None; Options.calstat := None;
     Options.iris_dateobs := Some " 2020-1-5"; Options.dec := None;
     Options.exp_time := "0.0"; Options.filter := None;
     Options.use_midpoint_for_dateobs := false; Options.adjust_time := false;
     Options.object := None; Options.ra := None; Options.tz_offset := "0.0";
     Options.verbose := false |}.

(** [--ra 12:99:99] *)
Definition o_ra_99 : Options.t :=
  {| Options.airmass := None; Options.calstat := None;
     Options.iris_dateobs := None; Options.dec := None;
     Options.exp_time := "0.0"; Options.filter := None;
     Options.use_midpoint_for_dateobs := false; Options.adjust_time := false;
     Options.object := None; Options.ra := Some "12:99:99";
     Options.tz_offset := "0.0"; Options.verbose := false |}.

(** [--ra "12 34 56.7"], the space-separated form of the help text. *)
Definition o_ra_spaces : Options.t :=
  {| Options.airmass := None; Options.calstat := None;
     Options.iris_dateobs := None; Options.dec := None;
     Options.exp_time := "0.0"; Options.filter := None;
     Options.use_midpoint_for_dateobs := false; Options.adjust_time := false;
     Options.object := None; Options.ra := Some "12 34 56.7";
     Options.tz_offset := "0.0"; Options.verbose := false |}.

(** [--ra 12:34:56.7 --dec -5:6:7] *)
Definition o_ra_dec : Options.t :=
  {| Options.airmass := None; Options.calstat := None;
     Options.iris_dateobs := None; Options.dec := Some "-5:6:7";
     Options.exp_time := "0.0"; Options.filter := None;
     Options.use_midpoint_for_dateobs := false; Options.adjust_time := false;
     Options.object := None; Options.ra := Some "12:34:56.7";
     Options.tz_offset := "0.0"; Options.verbose := false |}.

(** [--calstat BD] *)
Definition o_calstat_BD : Options.t :=
  {| Options.airmass := None; Options.calstat := Some "BD";
     Options.iris_dateobs := None; Options.dec := None;
     Options.exp_time := "0.0"; Options.filter := None;
     Options.use_midpoint_for_dateobs := false; Options.adjust_time := false;
     Options.object := None; Options.ra := None; Options.tz_offset := "0.0";
     Options.verbose := false |}.

(** [--filter R --verbose] *)
Definition o_filter_R : Options.t :=
  {| Options.airmass := None; Options.calstat := None;
     Options.iris_dateobs := None; Options.dec := None;
     Options.exp_time := "0.0"; Options.filter := Some "R";
     Options.use_midpoint_for_dateobs := false; Options.adjust_time := false;
     Options.object := None; Options.ra := None; Options.tz_offset := "0.0";
     Options.verbose := true |}.

(** A header whose filter is V. *)
Definition h_filter_V : header := {[ "FILTER" := VStr "V" ]}.

(** A file that has just been opened, with an empty header and with
    [h_filter_V]. *)
Definition w_empty : world := {| hdr := ∅; disk := ∅; out := [] |}.
Definition w_filter_V : world :=
  {| hdr := h_filter_V; disk := h_filter_V; out := [] |}.

(** [--adjust-time --tzoffset 1.0] *)
Definition o_adjust_tz1 : Options.t :=
  {| Options.airmass := None; Options.calstat := None;
     Options.iris_dateobs := None; Options.dec := None;
     Options.exp_time := "0.0"; Options.filter := None;
     Options.use_midpoint_for_dateobs := false; Options.adjust_time := true;
     Options.object := None; Options.ra := None; Options.tz_offset := "1.0";
     Options.verbose := false |}.

(** A header in the legacy form: the date as DD/MM/YYYY, the start time in
    UT-START, an exposure of 61 seconds. *)
Definition h_ut_start : header :=
  <["UT-START" := VStr "10:11:12"]>
    (<["DATE-OBS" := VStr "05/01/2020"]> {[ "EXPTIME" := VInt 61 ]}).

(** [h_ut_start] after the time adjustment of [o_adjust_tz1]. *)
Definition h_ut_start_adjusted : header :=
  <["JD" := VFloat 0x1.2c272fbb518a7p+21]>
    (<["MIDPOINT" := VStr "2020-01-05T11:11:42.500"]>
       (<["DATE-OBS" := VStr "2020-01-05T11:11:12.000"]>
          (delete "UT-START" h_ut_start))).

(** A header with UT-START and a DATE-OBS that is an ISO date-time. *)
Definition h_ut_iso : header :=
  <["UT-START" := VStr "10:11:12"]>
    {[ "DATE-OBS" := VStr "2020-01-05T10:11:12" ]}.

(** [--object M42 --airmass 1.2] *)
Definition o_object_airmass : Options.t :=
  {| Options.airmass := Some "1.2"; Options.calstat := None;
     Options.iris_dateobs := None; Options.dec := None;
     Options.exp_time := "0.0"; Options.filter := None;
     Options.use_midpoint_for_dateobs := false; Options.adjust_time := false;
     Options.object := Some "M42"; Options.ra := None;
     Options.tz_offset := "0.0"; Options.verbose := false |}.

(** A header with an ISO date-time and an exposure of 2^63 seconds. *)
Definition h_exptime_huge : header :=
  <["EXPTIME" := VInt 9223372036854775808]>
    {[ "DATE-OBS" := VStr "2020-01-01T00:00:00" ]}.

(** [--adjust-time --tzoffset abc --object M42]: an offset that is not a
    number. *)
Definition o_bad_tz : Options.t :=
  {| Options.airmass := None; Options.calstat := None;
     Options.iris_dateobs := None; Options.dec := None;
     Options.exp_time := "0.0"; Options.filter := None;
     Options.use_midpoint_for_dateobs := false; Options.adjust_time := true;
     Options.object := Some "M42"; Options.ra := None;
     Options.tz_offset := "abc"; Options.verbose := false |}.

(** [--adjust-time --tzoffset 1.0 --use-midpoint-for-dateobs] *)
Definition o_midpoint : Options.t :=
  {| Options.airmass := None; Options.calstat := None;
     Options.iris_dateobs := None; Options.dec := None;
     Options.exp_time := "0.0"; Options.filter := None;
     Options.use_midpoint_for_dateobs := true; Options.adjust_time := true;
     Options.object := None; Options.ra := None; Options.tz_offset := "1.0";
     Options.verbose := false |}.

(** [--iris-dateobs 2020-1-5] *)
Definition o_iris_only : Options.t :=
  {| Options.airmass := None; Options.calstat := None;
     Options.iris_dateobs := Some "2020-1-5"; Options.dec := None;
     Options.exp_time := "0.0"; Options.filter := None;
     Options.use_midpoint_for_dateobs := false; Options.adjust_time := false;
     Options.object := None; Options.ra := None; Options.tz_offset := "0.0";
     Options.verbose := false |}.

(** A header with the start time only. *)
Definition h_ut_only : header := {[ "UT-START" := VStr "10:11:12" ]}.

(** A header with a date in the ISO form. *)
Definition h_iso : header := {[ "DATE-OBS" := VStr "2020-01-01T00:00:00" ]}.

End Ex.


(* ===================================================================== *)
(** ** Properties of the edit steps *)
(* ===================================================================== *)

(** Unfolds the effect combinators of a step. *)
Ltac unfold_M :=
  unfold bind, ret, raise, print, when, contains, getitem, setitem, delitem,
    flush, set_hdr in *.

Section StepProperties.
Context `{PF : PyFloat} `{TL : TimeLib}.
Import PyStr Re.

Lemma contains_true (k : string) (v : hval) (w : world) :
  hdr w !! k = Some v -> contains k w = (inr true, w).
Proof.
  intros H. unfold contains. rewrite H.
  rewrite bool_decide_eq_true_2; [reflexivity | eauto].
Qed.

Lemma contains_false (k : string) (w : world) :
  hdr w !! k = None -> contains k w = (inr false, w).
Proof.
  intros H. unfold contains. rewrite H.
  rewrite bool_decide_eq_false_2; [reflexivity | ].
  intros [x Hx]. discriminate.
Qed.

Lemma setitem_ok (k : string) (v : hval) (w : world) :
  assignable v = true ->
  setitem k v w = (inr tt, set_hdr (<[k := as_stored v]> (hdr w)) w).
Proof. intros H. unfold setitem. rewrite H. reflexivity. Qed.

Lemma setitem_fails (k : string) (v : hval) (w : world) :
  assignable v = false -> setitem k v w = (inl ValueError, w).
Proof. intros H. unfold setitem. rewrite H. reflexivity. Qed.

Lemma calstat_values_stored (c : string) :
  c ∈ calstat_values ->
  assignable (VStr c) = true /\ as_stored (VStr c) = VStr c.
Proof.
  unfold calstat_values. rewrite !elem_of_cons, elem_of_nil.
  intros [-> | [-> | [-> | [-> | [-> | []]]]]]; split; reflexivity.
Qed.

Lemma calstat_values_spec (c : string) :
  c ∈ calstat_values <->
  c = "B" \/ c = "BD" \/ c = "BF" \/ c = "DF" \/ c = "BDF".
Proof.
  unfold calstat_values. rewrite !elem_of_cons, elem_of_nil. tauto.
Qed.

(** C7. A calibration status overwrites CALSTAT exactly when it is one of
    the five strings B, BD, BF, DF, BDF; any other value (also a case
    variant such as "bd" or a permutation such as "DB") prints the
    diagnostic and leaves the header as it was. *)
Theorem set_calstat_enumerated (o : Options.t) (arg c : string) (w : world) :
  Options.calstat o = Some c ->
  let listed := c = "B" \/ c = "BD" \/ c = "BF" \/ c = "DF" \/ c = "BDF" in
  (listed ->
   set_calstat o arg w =
     (inr tt,
      {| hdr := <["CALSTAT" := VStr c]> (hdr w); disk := disk w;
         out := out w ++ (if Options.verbose o
                          then [arg +:+ ": Set calstat to " +:+ c] else []) |}))
  /\ (~ listed ->
      set_calstat o arg w =
        (inr tt,
         {| hdr := hdr w; disk := disk w;
            out := out w ++ [arg +:+ ": CALSTAT must be one of B, BD, BF, DF, BDF"] |}))
  /\ ~ ("DB" ∈ calstat_values) /\ ~ ("bd" ∈ calstat_values)
  /\ ~ ("b" ∈ calstat_values).
Proof.
  intros Hc listed. unfold set_calstat. rewrite Hc.
  split; [| split].
  - intros Hl. apply calstat_values_spec in Hl.
    rewrite bool_decide_eq_true_2 by exact Hl. simpl.
    destruct (calstat_values_stored c Hl) as [Ha Hs].
    unfold bind at 1. rewrite (setitem_ok _ _ _ Ha), Hs.
    destruct w as [h d ou]. unfold_M. simpl.
    destruct (Options.verbose o); simpl; [reflexivity |].
    rewrite app_nil_r. reflexivity.
  - intros Hn. rewrite bool_decide_eq_false_2.
    + reflexivity.
    + intros Hin. apply Hn. apply calstat_values_spec. exact Hin.
  - repeat split; intros H; apply calstat_values_spec in H;
      destruct H as [H | [H | [H | [H | H]]]]; discriminate.
Qed.

(** C4 (the code with FILTER present). With a filter option and a
    header that already has a FILTER value, [set_filter] reads the old
    value and does nothing else: the header keeps the old value and no
    line is printed, in verbose mode too.  The assignment and the message
    "Filter changed from ... to ..." sit in the [else] branch of the
    source. *)
Theorem set_filter_skipped_when_present
  (o : Options.t) (arg f : string) (w : world) (v : hval) :
  Options.filter o = Some f ->
  hdr w !! "FILTER" = Some v ->
  set_filter o arg w = (inr tt, w).
Proof.
  intros Hf Hv. unfold set_filter. rewrite Hf.
  unfold bind at 1. rewrite (contains_true _ _ _ Hv).
  unfold bind, getitem, ret. rewrite Hv. reflexivity.
Qed.

End StepProperties.

(* ===================================================================== *)
(** ** The matcher on the patterns of the script *)
(* ===================================================================== *)

Section Matcher.
Import PyStr Re.
Local Open Scope list_scope.

Lemma chars_str (l : list ascii) : chars (str l) = l.
Proof. apply list_ascii_of_string_of_list_ascii. Qed.

Lemma str_chars (s : string) : str (chars s) = s.
Proof. apply string_of_list_ascii_of_string. Qed.

Lemma digit_not_space (a : ascii) : is_digit a = true -> is_space a = false.
Proof.
  unfold is_digit, is_space. intros H.
  apply andb_true_iff in H as [H1 H2].
  apply Nat.leb_le in H1. apply Nat.leb_le in H2.
  repeat (apply orb_false_iff; split).
  - apply andb_false_iff. right. apply Nat.leb_gt. lia.
  - apply andb_false_iff. right. apply Nat.leb_gt. lia.
  - apply Nat.eqb_neq. lia.
  - apply Nat.eqb_neq. lia.
Qed.

Lemma space_not_digit (a : ascii) : is_space a = true -> is_digit a = false.
Proof.
  intros H. destruct (is_digit a) eqn:E; [| reflexivity].
  apply digit_not_space in E. congruence.
Qed.

(** The head of the input, if any, is outside the class [p]. *)
Definition stops (p : ascii -> bool) (rest : list ascii) : Prop :=
  match rest with
  | [] => True
  | b :: _ => p b = false
  end.

(** One iteration of a loop over the class [p]. *)
Definition class_step (p : ascii -> bool) (step : cont -> cont) : Prop :=
  forall k pos s c,
    step k pos s c = match s with
                     | x :: s' => if p x then k (S pos) s' c else None
                     | [] => None
                     end.

Lemma mt_class_step (p : ascii -> bool) : class_step p (mt (Class p)).
Proof. intros k pos s c. reflexivity. Qed.

(** A greedy loop over a character class consumes a whole run of the class
    when the continuation accepts what follows the run. *)
Lemma star_loop_class_run (p : ascii -> bool) (step : cont -> cont)
      (k : cont) (w rest : list ascii) :
  class_step p step ->
  Forall (fun a => p a = true) w -> stops p rest ->
  forall fuel pos c x,
    (length w < fuel)%nat ->
    k (length w + pos)%nat rest c = Some x ->
    star_loop step k fuel pos (w ++ rest) c = Some x.
Proof.
  intros Hstep Hw Hrest.
  induction Hw as [| a w Ha Hw IH]; intros fuel pos c x Hf Hk.
  - simpl in *. destruct fuel as [| f]; [exact Hk |].
    cbn [star_loop]. rewrite Hstep.
    destruct rest as [| b r]; [exact Hk |].
    simpl in Hrest. rewrite Hrest. exact Hk.
  - destruct fuel as [| f]; [simpl in Hf; lia |].
    cbn [star_loop]. rewrite Hstep. cbn [app]. rewrite Ha.
    assert (Hlt : (length (w ++ rest) <? length (a :: w ++ rest))%nat = true)
      by (apply Nat.ltb_lt; simpl; lia).
    rewrite Hlt.
    rewrite (IH f (S pos) c x); [reflexivity | simpl in Hf; lia |].
    rewrite <- Hk. f_equal. simpl. lia.
Qed.

Lemma mt_star_class_run (p : ascii -> bool) (k : cont) (w rest : list ascii)
      (pos : nat) (c x : captures) :
  Forall (fun a => p a = true) w -> stops p rest ->
  k (length w + pos)%nat rest c = Some x ->
  mt (Star (Class p)) k pos (w ++ rest) c = Some x.
Proof.
  intros Hw Hrest Hk. cbn [mt].
  apply (star_loop_class_run p); try assumption.
  - apply mt_class_step.
  - rewrite length_app. lia.
Qed.

(** What a successful greedy loop over a class has consumed. *)
Lemma star_loop_class_inv (p : ascii -> bool) (step : cont -> cont) (k : cont) :
  class_step p step ->
  forall fuel pos s c x,
    star_loop step k fuel pos s c = Some x ->
    exists w rest, s = w ++ rest /\ Forall (fun a => p a = true) w
                   /\ k (length w + pos)%nat rest c = Some x.
Proof.
  intros Hstep.
  induction fuel as [| f IH]; intros pos s c x H.
  - simpl in H. exists [], s. simpl. auto.
  - cbn [star_loop] in H. rewrite Hstep in H. destruct s as [| a s'].
    + exists [], []. simpl. auto.
    + destruct (p a) eqn:Ha.
      * assert (Hlt : (length s' <? length (a :: s'))%nat = true)
          by (apply Nat.ltb_lt; simpl; lia).
        rewrite Hlt in H.
        destruct (star_loop step k f (S pos) s' c) as [y |] eqn:E.
        -- inversion H; subst y.
           destruct (IH _ _ _ _ E) as (w & rest & -> & Hw & Hk).
           exists (a :: w), rest. simpl. split; [reflexivity |].
           split; [constructor; assumption |].
           rewrite <- Hk. f_equal. lia.
        -- exists [], (a :: s'). simpl. auto.
      * exists [], (a :: s'). simpl. auto.
Qed.

Lemma mt_star_class_inv (p : ascii -> bool) (k : cont) pos s c x :
  mt (Star (Class p)) k pos s c = Some x ->
  exists w rest, s = w ++ rest /\ Forall (fun a => p a = true) w
                 /\ k (length w + pos)%nat rest c = Some x.
Proof.
  cbn [mt]. apply star_loop_class_inv. apply mt_class_step.
Qed.

Lemma mt_class_inv (p : ascii -> bool) (k : cont) pos s c x :
  mt (Class p) k pos s c = Some x ->
  exists a s', s = a :: s' /\ p a = true /\ k (S pos) s' c = Some x.
Proof.
  simpl. destruct s as [| a s']; [discriminate |].
  destruct (p a) eqn:Ha; [| discriminate]. eauto.
Qed.

Lemma mt_lit_inv (a : ascii) (k : cont) pos s c x :
  mt (Lit a) k pos s c = Some x ->
  exists s', s = a :: s' /\ k (S pos) s' c = Some x.
Proof.
  simpl. destruct s as [| b s']; [discriminate |].
  destruct (Ascii.eqb b a) eqn:E; [| discriminate].
  apply Ascii.eqb_eq in E. subst b. eauto.
Qed.

Lemma mt_opt_class_inv (p : ascii -> bool) (k : cont) pos s c x :
  mt (Opt (Class p)) k pos s c = Some x ->
  (exists a s', s = a :: s' /\ p a = true /\ k (S pos) s' c = Some x)
  \/ k pos s c = Some x.
Proof.
  unfold Opt. cbn [mt]. intros H.
  destruct s as [| a s']; [right; exact H |].
  destruct (p a) eqn:Ha; [| right; exact H].
  destruct (k (S pos) s' c) as [y |] eqn:E.
  - inversion H; subst y. left. eauto.
  - right. exact H.
Qed.

(** [runs r w rest f]: at an input that starts with [w], followed by
    [rest], the pattern [r] consumes [w] and turns the captures [c] into
    [f c], whenever the continuation accepts the outcome. *)
Definition runs (r : re) (w rest : list ascii) (f : captures -> captures) : Prop :=
  forall k pos c x,
    k (length w + pos)%nat rest (f c) = Some x ->
    mt r k pos (w ++ rest) c = Some x.

(** [fails r s]: the pattern [r] matches no prefix of [s]. *)
Definition fails (r : re) (s : list ascii) : Prop :=
  forall k pos c, mt r k pos s c = None.

Lemma runs_empty rest : runs Empty [] rest id.
Proof. intros k pos c x H. exact H. Qed.

Lemma runs_class (p : ascii -> bool) a rest :
  p a = true -> runs (Class p) [a] rest id.
Proof. intros Ha k pos c x H. simpl. rewrite Ha. exact H. Qed.

Lemma runs_lit a rest : runs (Lit a) [a] rest id.
Proof. intros k pos c x H. simpl. rewrite Ascii.eqb_refl. exact H. Qed.

Lemma runs_eos : runs Eos [] [] id.
Proof. intros k pos c x H. exact H. Qed.

Lemma runs_cat r1 r2 w1 w2 rest f1 f2 :
  runs r1 w1 (w2 ++ rest) f1 -> runs r2 w2 rest f2 ->
  runs (Cat r1 r2) (w1 ++ w2) rest (fun c => f2 (f1 c)).
Proof.
  intros H1 H2 k pos c x H. cbn [mt]. rewrite <- app_assoc.
  apply H1. apply H2. rewrite <- H. f_equal. rewrite length_app. lia.
Qed.

Lemma runs_star_class (p : ascii -> bool) w rest :
  Forall (fun a => p a = true) w -> stops p rest ->
  runs (Star (Class p)) w rest id.
Proof.
  intros Hw Hs k pos c x H. apply mt_star_class_run; assumption.
Qed.

Lemma runs_group g r w rest f :
  runs r w rest f ->
  runs (Group g r) w rest (fun c => <[g := str w]> (f c)).
Proof.
  intros Hr k pos c x H. cbn [mt]. apply Hr.
  replace (length w + pos - pos)%nat with (length w) by lia.
  rewrite take_app_length. exact H.
Qed.

Lemma runs_or_l r1 r2 w rest f :
  runs r1 w rest f -> runs (Or r1 r2) w rest f.
Proof.
  intros Hr k pos c x H. cbn [mt]. rewrite (Hr k pos c x H). reflexivity.
Qed.

Lemma runs_or_r r1 r2 w rest f :
  fails r1 (w ++ rest) -> runs r2 w rest f -> runs (Or r1 r2) w rest f.
Proof.
  intros Hf Hr k pos c x H. cbn [mt]. rewrite Hf. apply Hr. exact H.
Qed.

Lemma runs_plus_class (p : ascii -> bool) w rest :
  Forall (fun a => p a = true) w -> w <> [] -> stops p rest ->
  runs (Plus (Class p)) w rest id.
Proof.
  intros Hw Hne Hs. destruct w as [| a w']; [congruence |].
  inversion Hw; subst.
  apply (runs_cat (Class p) (Star (Class p)) [a] w' rest id id).
  - apply runs_class. assumption.
  - apply runs_star_class; assumption.
Qed.

Lemma fails_class (p : ascii -> bool) s : stops p s -> fails (Class p) s.
Proof.
  intros Hs k pos c. simpl. destruct s as [| b s']; [reflexivity |].
  simpl in Hs. rewrite Hs. reflexivity.
Qed.

Lemma fails_lit a s :
  match s with [] => True | b :: _ => b <> a end -> fails (Lit a) s.
Proof.
  intros Hs k pos c. simpl. destruct s as [| b s']; [reflexivity |].
  destruct (Ascii.eqb b a) eqn:E; [| reflexivity].
  apply Ascii.eqb_eq in E. contradiction.
Qed.

Lemma fails_cat r1 r2 s : fails r1 s -> fails (Cat r1 r2) s.
Proof. intros H k pos c. cbn [mt]. apply H. Qed.

Lemma fails_or r1 r2 s : fails r1 s -> fails r2 s -> fails (Or r1 r2) s.
Proof. intros H1 H2 k pos c. cbn [mt]. rewrite H1. apply H2. Qed.

Lemma fails_group g r s : fails r s -> fails (Group g r) s.
Proof. intros H k pos c. cbn [mt]. apply H. Qed.

(** A fixed number of characters of a class. *)
Lemma runs_rep_class (p : ascii -> bool) w rest :
  Forall (fun a => p a = true) w ->
  runs (Rep (length w) (Class p)) w rest id.
Proof.
  intros Hw. induction Hw as [| a w Ha Hw IH].
  - apply runs_empty.
  - apply (runs_cat (Class p) (Rep (length w) (Class p)) [a] w rest id id).
    + apply runs_class. assumption.
    + exact IH.
Qed.

(** One or two characters of a class. *)
Lemma runs_rep12_class (p : ascii -> bool) w rest :
  Forall (fun a => p a = true) w ->
  (length w = 1 \/ length w = 2)%nat -> stops p rest ->
  runs (Rep12 (Class p)) w rest id.
Proof.
  intros Hw Hl Hs.
  destruct w as [| a [| b [| c w']]]; simpl in Hl; try lia.
  - inversion Hw; subst.
    apply (runs_cat (Class p) (Opt (Class p)) [a] [] rest id id).
    + apply runs_class. assumption.
    + apply runs_or_r; [apply fails_class; exact Hs | apply runs_empty].
  - inversion Hw as [| ? ? Ha Hw']; subst. inversion Hw'; subst.
    apply (runs_cat (Class p) (Opt (Class p)) [a] [b] rest id id).
    + apply runs_class. assumption.
    + apply runs_or_l. apply runs_class. assumption.
Qed.

Lemma stops_space_digits w rest :
  Forall (fun a => is_digit a = true) w -> w <> [] -> stops is_space (w ++ rest).
Proof.
  intros Hw Hne. destruct w as [| a w']; [congruence |].
  inversion Hw; subst. simpl. apply digit_not_space. assumption.
Qed.

Lemma stops_digit_spaces w :
  Forall (fun a => is_space a = true) w -> stops is_digit (w ++ []).
Proof.
  intros Hw. destruct w as [| a w']; [exact I |].
  inversion Hw; subst. simpl. apply space_not_digit. assumption.
Qed.

Lemma stops_app_l (p : ascii -> bool) (w r : list ascii) :
  w <> [] -> stops p w -> stops p (w ++ r).
Proof. intros Hne Hs. destruct w; [congruence | exact Hs]. Qed.

(** The end of both patterns, ["\s*$"]. *)
Lemma runs_trailing ws :
  Forall (fun a => is_space a = true) ws ->
  runs (Cat (Star space) Eos) (ws ++ []) [] (fun c => c).
Proof.
  intros Hw.
  apply (runs_cat (Star space) Eos ws [] [] id id).
  - apply runs_star_class; [assumption | exact I].
  - apply runs_eos.
Qed.

Lemma runs_seq r1 r2 w1 w2 rest f1 f2 F :
  runs r1 w1 (w2 ++ rest) f1 -> runs r2 w2 rest f2 ->
  (forall c, F c = f2 (f1 c)) ->
  runs (Cat r1 r2) (w1 ++ w2) rest F.
Proof.
  intros H1 H2 HF k pos c x H. rewrite HF in H.
  apply (runs_cat r1 r2 w1 w2 rest f1 f2 H1 H2 k pos c x H).
Qed.

Lemma runs_capture g r w rest f F :
  runs r w rest f -> (forall c, F c = <[g := str w]> (f c)) ->
  runs (Group g r) w rest F.
Proof.
  intros Hr HF k pos c x H. rewrite HF in H.
  apply (runs_group g r w rest f Hr k pos c x H).
Qed.

(** A match anchored by [^]: the pattern after it runs from position 0. *)
Lemma re_match_runs r w f :
  runs r w [] f -> re_match (Cat Bos r) (str w) = Some (f ∅).
Proof.
  intros Hr. unfold re_match. rewrite chars_str.
  change (mt r (fun _ _ c => Some c) 0%nat w ∅ = Some (f ∅)).
  rewrite <- (app_nil_r w) at 1. apply Hr. reflexivity.
Qed.

End Matcher.

(** [run_seq tac]: the first pattern of a concatenation runs by [tac]; the
    rest of the concatenation and the composition of the captures stay as
    goals.  [run_capture tac]: the body of a group runs by [tac]. *)
Ltac run_seq tac := eapply runs_seq; [ solve [tac] | | ].
Ltac run_capture tac :=
  eapply runs_capture; [ solve [tac] | intros; reflexivity ].

Section Patterns.
Import PyStr Re.
Local Open Scope list_scope.

Definition all_digit (l : list ascii) : Prop :=
  Forall (fun a => is_digit a = true) l.
Definition all_space (l : list ascii) : Prop :=
  Forall (fun a => is_space a = true) l.

(** Every string made of four digits, a dash, one or two digits, a dash
    and one or two digits, between optional white space, matches the
    pattern of the legacy date; the groups are the three digit fields. *)
Lemma iris_pattern_matches (ws1 y m d ws2 : list ascii) :
  all_space ws1 -> all_space ws2 ->
  all_digit y -> length y = 4%nat ->
  all_digit m -> (length m = 1 \/ length m = 2)%nat ->
  all_digit d -> (length d = 1 \/ length d = 2)%nat ->
  re_match iris_pattern (str (ws1 ++ y ++ ["-"%char] ++ m ++ ["-"%char] ++ d ++ ws2))
  = Some (<[3%nat := str d]> (<[2%nat := str m]> (<[1%nat := str y]> ∅))).
Proof.
  intros Hs1 Hs2 Hy Hy4 Hm Hml Hd Hdl.
  rewrite <- (app_nil_r ws2) at 1.
  unfold iris_pattern.
  apply (re_match_runs _ _
           (fun c => <[3%nat := str d]> (<[2%nat := str m]> (<[1%nat := str y]> c)))).
  run_seq ltac:(apply runs_star_class;
                 [exact Hs1
                 | rewrite app_nil_r; apply stops_space_digits;
                   [exact Hy | intros ->; discriminate]]).
  1: run_seq ltac:(run_capture ltac:(rewrite <- Hy4; apply runs_rep_class; exact Hy)).
  1: run_seq ltac:(apply runs_lit).
  1: run_seq ltac:(run_capture
                     ltac:(apply runs_rep12_class;
                           [exact Hm | exact Hml | reflexivity])).
  1: run_seq ltac:(apply runs_lit).
  1: run_seq ltac:(run_capture
                     ltac:(apply runs_rep12_class;
                           [exact Hd | exact Hdl
                           | rewrite app_nil_r; apply stops_digit_spaces; exact Hs2])).
  1: apply runs_trailing; exact Hs2.
  all: intros; reflexivity.
Qed.

(** An optional fraction of the seconds: nothing, or a point and digits. *)
Definition fraction (frac : list ascii) : Prop :=
  frac = [] \/ exists f, frac = "."%char :: f /\ all_digit f /\ f <> [].

Lemma space_not_point (ws : list ascii) :
  all_space ws -> match ws ++ [] with [] => True | b :: _ => b <> "."%char end.
Proof.
  intros Hw. destruct ws as [| b ws']; [exact I |].
  inversion Hw; subst. simpl. intros ->. discriminate.
Qed.

(** The seconds group, ["(\d+(\.\d+)?)"], before the trailing white space. *)
Lemma seconds_group_runs (s frac ws2 : list ascii) :
  all_digit s -> s <> [] -> fraction frac -> all_space ws2 ->
  exists F5,
    runs (Group 4 (Cat (Plus digit)
                       (Opt (Group 5 (Cat (Lit ".") (Plus digit))))))
         (s ++ frac) ((ws2 ++ []) ++ [])
         (fun c => <[4%nat := str (s ++ frac)]> (F5 c))
    /\ (forall c (k : nat), k <> 5%nat -> F5 c !! k = c !! k).
Proof.
  intros Hs Hsne Hfrac Hw.
  destruct Hfrac as [-> | (f & -> & Hf & Hfne)].
  - exists (fun c => c). split; [| reflexivity].
    run_capture ltac:(
      run_seq ltac:(apply runs_plus_class;
                    [exact Hs | exact Hsne
                    | cbn [app]; rewrite app_nil_r;
                      apply stops_digit_spaces; exact Hw]);
      [ apply runs_or_r;
        [ apply fails_group, fails_cat, fails_lit; cbn [app];
          rewrite app_nil_r; apply space_not_point; exact Hw
        | apply runs_empty ]
      | intros; reflexivity ]).
  - exists (fun c => <[5%nat := str ("."%char :: f)]> c). split.
    + run_capture ltac:(
        run_seq ltac:(apply runs_plus_class;
                      [exact Hs | exact Hsne | reflexivity]);
        [ apply runs_or_l;
          run_capture ltac:(
            apply (runs_seq (Lit ".") (Plus digit) ["."%char] f _ id id);
            [ apply runs_lit
            | apply runs_plus_class;
              [exact Hf | exact Hfne
              | rewrite app_nil_r; apply stops_digit_spaces; exact Hw]
            | intros; reflexivity ])
        | intros; reflexivity ]).
    + intros c k Hk. cbv beta. rewrite lookup_insert_ne by congruence.
      reflexivity.
Qed.

(** The whole coordinate pattern, for a prefix pattern that consumes [sg]
    in front of the digits of the first field. *)
Lemma hd_m_s_pattern_matches (prefix : re) (sg : list ascii)
      (F2 : captures -> captures) (ws1 h m s frac ws2 : list ascii) :
  (forall rest, runs (Opt (Group 2 prefix)) sg (h ++ rest) F2) ->
  (forall c (k : nat), k <> 2%nat -> F2 c !! k = c !! k) ->
  all_space ws1 -> all_space ws2 ->
  all_digit h -> h <> [] -> all_digit m -> m <> [] ->
  all_digit s -> s <> [] -> fraction frac ->
  stops is_space (sg ++ h) ->
  exists caps,
    re_match (hd_m_s_pattern prefix)
      (str (ws1 ++ (sg ++ h) ++ [":"%char] ++ m ++ [":"%char]
                ++ (s ++ frac) ++ ws2 ++ []))
    = Some caps
    /\ group caps 1 = Some (str (sg ++ h))
    /\ group caps 3 = Some (str m)
    /\ group caps 4 = Some (str (s ++ frac)).
Proof.
  intros Hpre HF2 Hs1 Hs2 Hh Hhne Hm Hmne Hs Hsne Hfrac Hhead.
  destruct (seconds_group_runs s frac ws2 Hs Hsne Hfrac Hs2)
    as (F5 & Hsec & HF5).
  set (F := fun c : captures =>
              <[4%nat := str (s ++ frac)]>
                (F5 (<[3%nat := str m]> (<[1%nat := str (sg ++ h)]> (F2 c))))).
  exists (F ∅). split.
  - unfold hd_m_s_pattern. apply (re_match_runs _ _ F).
    assert (Hne : sg ++ h <> [])
      by (intros E; apply app_eq_nil in E as [_ E]; contradiction).
    run_seq ltac:(apply runs_star_class;
                  [exact Hs1
                  | rewrite app_nil_r; apply stops_app_l; assumption]).
    1: run_seq ltac:(run_capture ltac:(
         run_seq ltac:(apply Hpre);
         [ apply runs_plus_class; [exact Hh | exact Hhne | reflexivity]
         | intros; reflexivity ])).
    1: run_seq ltac:(apply runs_lit).
    1: run_seq ltac:(run_capture ltac:(
         apply runs_plus_class; [exact Hm | exact Hmne | reflexivity])).
    1: run_seq ltac:(apply runs_lit).
    1: run_seq ltac:(exact Hsec).
    1: apply runs_trailing; exact Hs2.
    all: intros; reflexivity.
  - unfold group, F.
    repeat split.
    + rewrite lookup_insert_ne by congruence. rewrite HF5 by congruence.
      rewrite lookup_insert_ne by congruence. apply lookup_insert_eq.
    + rewrite lookup_insert_ne by congruence. rewrite HF5 by congruence.
      apply lookup_insert_eq.
    + apply lookup_insert_eq.
Qed.

(** With the empty prefix of [set_ra], the optional group matches the
    empty string. *)
Lemma prefix_none_runs (rest : list ascii) :
  runs (Opt (Group 2 prefix_none)) [] rest
       (fun c => <[2%nat := str []]> c).
Proof.
  apply runs_or_l. run_capture ltac:(apply runs_empty).
Qed.

(** The sign in front of a declination: none, [-] or [+]. *)
Definition sign (sg : list ascii) : Prop :=
  sg = [] \/ sg = ["-"%char] \/ sg = ["+"%char].

Lemma prefix_sign_runs (sg h rest : list ascii) :
  sign sg -> all_digit h -> h <> [] ->
  exists F2,
    runs (Opt (Group 2 prefix_sign)) sg (h ++ rest) F2
    /\ (forall c (k : nat), k <> 2%nat -> F2 c !! k = c !! k).
Proof.
  intros Hsg Hh Hhne. destruct h as [| a h']; [congruence |].
  inversion Hh as [| ? ? Ha Hh']; subst.
  assert (Hm : a <> "-"%char) by (intros ->; discriminate).
  assert (Hp : a <> "+"%char) by (intros ->; discriminate).
  destruct Hsg as [-> | [-> | ->]].
  - exists (fun c => c). split; [| reflexivity].
    apply runs_or_r; [| apply runs_empty].
    apply fails_group, fails_or; apply fails_lit; assumption.
  - exists (fun c => <[2%nat := str ["-"%char]]> c). split.
    + apply runs_or_l. run_capture ltac:(apply runs_or_l, runs_lit).
    + intros c k Hk. cbv beta. rewrite lookup_insert_ne by congruence.
      reflexivity.
  - exists (fun c => <[2%nat := str ["+"%char]]> c). split.
    + apply runs_or_l.
      run_capture ltac:(apply runs_or_r;
                        [apply fails_lit; intros H; discriminate H
                        | apply runs_lit]).
    + intros c k Hk. cbv beta. rewrite lookup_insert_ne by congruence.
      reflexivity.
Qed.

(** [consumes r P]: whenever the capture-free pattern [r] leads to a
    match, it has consumed a prefix [w] of the input with [P w]. *)
Definition consumes (r : re) (P : list ascii -> Prop) : Prop :=
  forall k pos s c x,
    mt r k pos s c = Some x ->
    exists w rest, s = w ++ rest /\ P w
                   /\ k (length w + pos)%nat rest c = Some x.

Lemma consumes_rep_class (p : ascii -> bool) (n : nat) :
  consumes (Rep n (Class p))
           (fun w => Forall (fun a => p a = true) w /\ length w = n).
Proof.
  induction n as [| n IH]; intros k pos s c x H.
  - exists [], s. simpl in *. auto.
  - cbn [Rep mt] in H.
    apply mt_class_inv in H as (a & s' & -> & Ha & H).
    apply IH in H as (w & rest & -> & [Hw Hl] & H).
    exists (a :: w), rest. simpl. split; [reflexivity |].
    split; [split; [constructor; assumption | lia] |].
    rewrite <- H. f_equal. lia.
Qed.

Lemma consumes_rep12_class (p : ascii -> bool) :
  consumes (Rep12 (Class p))
           (fun w => Forall (fun a => p a = true) w
                     /\ (length w = 1 \/ length w = 2)%nat).
Proof.
  intros k pos s c x H. unfold Rep12 in H. cbn [mt] in H.
  apply mt_class_inv in H as (a & s' & -> & Ha & H).
  apply mt_opt_class_inv in H as [(b & s'' & -> & Hb & H) | H].
  - exists [a; b], s''. simpl. repeat split; auto.
  - exists [a], s'. simpl. repeat split; auto.
Qed.

Lemma mt_group_inv g r P (K : cont) pos s c x :
  consumes r P ->
  mt (Group g r) K pos s c = Some x ->
  exists w rest, s = w ++ rest /\ P w
                 /\ K (length w + pos)%nat rest (<[g := str w]> c) = Some x.
Proof.
  intros Hr H. cbn [mt] in H.
  apply Hr in H as (w & rest & -> & HP & H).
  exists w, rest. split; [reflexivity |]. split; [exact HP |].
  replace (length w + pos - pos)%nat with (length w) in H by lia.
  rewrite take_app_length in H. exact H.
Qed.

Lemma mt_eos_inv (k : cont) pos s c x :
  mt Eos k pos s c = Some x -> k pos s c = Some x.
Proof.
  simpl. destruct s as [| a [| b s']]; try discriminate; [trivial |].
  destruct (Ascii.eqb a newline); [trivial | discriminate].
Qed.

(** A match of the legacy-date pattern has captured four digits, then one
    or two digits, then one or two digits. *)
Lemma iris_pattern_sound (s : string) (caps : captures) :
  re_match iris_pattern s = Some caps ->
  exists y m d,
    all_digit y /\ length y = 4%nat
    /\ all_digit m /\ (length m = 1 \/ length m = 2)%nat
    /\ all_digit d /\ (length d = 1 \/ length d = 2)%nat
    /\ caps = <[3%nat := str d]> (<[2%nat := str m]> (<[1%nat := str y]> ∅)).
Proof.
  unfold re_match, iris_pattern. intros H.
  change (mt (Star space)
             (mt (Cat (Group 1 (Rep 4 digit)) (Cat (Lit "-")
                 (Cat (Group 2 (Rep12 digit)) (Cat (Lit "-")
                 (Cat (Group 3 (Rep12 digit)) (Cat (Star space) Eos))))))
                 (fun _ _ c => Some c))
             0%nat (chars s) ∅ = Some caps) in H.
  apply mt_star_class_inv in H as (w1 & l1 & _ & _ & H).
  revert H. generalize (length w1 + 0)%nat. intros pos H.
  change (mt (Group 1 (Rep 4 digit))
             (mt (Cat (Lit "-") (Cat (Group 2 (Rep12 digit)) (Cat (Lit "-")
                 (Cat (Group 3 (Rep12 digit)) (Cat (Star space) Eos)))))
                 (fun _ _ c => Some c))
             pos l1 ∅ = Some caps) in H.
  apply (mt_group_inv _ _ _ _ _ _ _ _ (consumes_rep_class is_digit 4)) in H
    as (y & l2 & _ & [Hy Hy4] & H).
  change (mt (Lit "-")
             (mt (Cat (Group 2 (Rep12 digit)) (Cat (Lit "-")
                 (Cat (Group 3 (Rep12 digit)) (Cat (Star space) Eos))))
                 (fun _ _ c => Some c))
             (length y + pos)%nat l2 (<[1%nat := str y]> ∅) = Some caps) in H.
  apply mt_lit_inv in H as (l3 & _ & H).
  change (mt (Group 2 (Rep12 digit))
             (mt (Cat (Lit "-")
                 (Cat (Group 3 (Rep12 digit)) (Cat (Star space) Eos)))
                 (fun _ _ c => Some c))
             (S (length y + pos)) l3 (<[1%nat := str y]> ∅) = Some caps) in H.
  apply (mt_group_inv _ _ _ _ _ _ _ _ (consumes_rep12_class is_digit)) in H
    as (m & l4 & _ & [Hm Hml] & H).
  change (mt (Lit "-")
             (mt (Cat (Group 3 (Rep12 digit)) (Cat (Star space) Eos))
                 (fun _ _ c => Some c))
             (length m + S (length y + pos))%nat l4
             (<[2%nat := str m]> (<[1%nat := str y]> ∅)) = Some caps) in H.
  apply mt_lit_inv in H as (l5 & _ & H).
  change (mt (Group 3 (Rep12 digit))
             (mt (Cat (Star space) Eos) (fun _ _ c => Some c))
             (S (length m + S (length y + pos))) l5
             (<[2%nat := str m]> (<[1%nat := str y]> ∅)) = Some caps) in H.
  apply (mt_group_inv _ _ _ _ _ _ _ _ (consumes_rep12_class is_digit)) in H
    as (d & l6 & _ & [Hd Hdl] & H).
  change (mt (Star space) (mt Eos (fun _ _ c => Some c))
             (length d + S (length m + S (length y + pos)))%nat l6
             (<[3%nat := str d]> (<[2%nat := str m]> (<[1%nat := str y]> ∅)))
          = Some caps) in H.
  apply mt_star_class_inv in H as (w2 & l7 & _ & _ & H).
  apply mt_eos_inv in H. inversion H; subst caps.
  exists y, m, d. repeat split; assumption.
Qed.

End Patterns.

(* ===================================================================== *)
(** ** The legacy date and the coordinates *)
(* ===================================================================== *)

Section DateAndCoordinates.
Context `{PF : PyFloat}.
Import PyStr Re.
Local Open Scope list_scope.

Lemma str_app (l1 l2 : list ascii) : str (l1 ++ l2) = str l1 +:+ str l2.
Proof.
  induction l1 as [| a l1 IH]; simpl; [reflexivity |].
  unfold str in *. simpl. rewrite IH. reflexivity.
Qed.

Lemma length_str (l : list ascii) : String.length (str l) = length l.
Proof.
  induction l as [| a l IH]; simpl; [reflexivity |].
  unfold str in *. simpl. rewrite IH. reflexivity.
Qed.

Lemma digit_not_sign (a : ascii) : is_digit a = true -> is_sign a = false.
Proof.
  intros H. unfold is_sign.
  destruct (Ascii.eqb a "+") eqn:E1.
  { apply Ascii.eqb_eq in E1. subst. discriminate. }
  destruct (Ascii.eqb a "-") eqn:E2.
  { apply Ascii.eqb_eq in E2. subst. discriminate. }
  reflexivity.
Qed.

(** A string that an assignment stores as it is: its characters are
    printable and it has no trailing blank. *)
Definition kept (s : string) : Prop :=
  assignable (VStr s) = true /\ as_stored (VStr s) = VStr s.

Lemma setitem_kept (k s : string) (w : world) :
  kept s ->
  setitem k (VStr s) w = (inr tt, set_hdr (<[k := VStr s]> (hdr w)) w).
Proof. intros [Ha Hs]. unfold setitem. rewrite Ha, Hs. reflexivity. Qed.

(** The last character, if any, is not white space. *)
Definition ends_nonblank (l : list ascii) : Prop :=
  match rev l with
  | [] => True
  | a :: _ => is_space a = false
  end.

Lemma rstrip_ends_nonblank (l : list ascii) :
  ends_nonblank l -> rstrip (str l) = str l.
Proof.
  unfold rstrip, ends_nonblank. rewrite chars_str.
  destruct (rev l) as [| a r] eqn:E; intros H.
  - apply (f_equal (@rev ascii)) in E. rewrite rev_involutive in E.
    subst l. reflexivity.
  - cbn [drop_while]. rewrite H, <- E, rev_involutive. reflexivity.
Qed.

Lemma kept_chars (l : list ascii) :
  forallb printable l = true -> ends_nonblank l -> kept (str l).
Proof.
  intros Hp He. split.
  - cbn [assignable]. rewrite chars_str. exact Hp.
  - cbn [as_stored]. rewrite rstrip_ends_nonblank by exact He. reflexivity.
Qed.

Lemma ends_nonblank_app (pre l : list ascii) :
  l <> [] -> ends_nonblank l -> ends_nonblank (pre ++ l).
Proof.
  unfold ends_nonblank. rewrite rev_app_distr.
  destruct (rev l) as [| a r] eqn:E; intros Hn H.
  - apply (f_equal (@rev ascii)) in E. rewrite rev_involutive in E.
    contradiction.
  - exact H.
Qed.

Lemma all_digit_ends_nonblank (l : list ascii) :
  all_digit l -> ends_nonblank l.
Proof.
  intros H. unfold ends_nonblank.
  destruct (rev l) as [| a r] eqn:E; [exact I |].
  apply digit_not_space. apply List.Forall_rev in H. rewrite E in H.
  inversion H; assumption.
Qed.

Lemma digit_printable (a : ascii) : is_digit a = true -> printable a = true.
Proof.
  unfold is_digit, printable. intros H.
  apply andb_true_iff in H as [H1 H2].
  apply Nat.leb_le in H1. apply Nat.leb_le in H2.
  apply andb_true_iff. split; apply Nat.leb_le; lia.
Qed.

Lemma all_digit_printable (l : list ascii) :
  all_digit l -> forallb printable l = true.
Proof.
  induction 1 as [| a l Ha _ IH]; [reflexivity |].
  cbn [forallb]. rewrite (digit_printable a Ha), IH. reflexivity.
Qed.

(** A field of one or two digits, padded with a zero to two digits. *)
Definition pad2 (l : list ascii) : list ascii :=
  if (length l =? 1)%nat then "0"%char :: l else l.

(** Day, month and year of digits, joined with slashes, are stored as
    they are. *)
Lemma kept_date (d m y : list ascii) :
  all_digit d -> all_digit m -> all_digit y -> y <> [] ->
  kept (str d +:+ "/" +:+ str m +:+ "/" +:+ str y).
Proof.
  intros Hd Hm Hy Hn.
  change "/" with (str ["/"%char]). rewrite <- !str_app.
  apply kept_chars.
  - rewrite !forallb_app. cbn [forallb].
    rewrite !all_digit_printable by assumption. reflexivity.
  - rewrite !app_assoc. apply ends_nonblank_app; [exact Hn |].
    apply all_digit_ends_nonblank. exact Hy.
Qed.

Lemma zfill2_digits (l : list ascii) :
  all_digit l -> (length l = 1 \/ length l = 2)%nat ->
  zfill 2 (str l) = str (pad2 l)
  /\ all_digit (pad2 l) /\ length (pad2 l) = 2%nat.
Proof.
  intros Hl Hlen. unfold pad2.
  destruct l as [| a [| b [| c l']]]; simpl in Hlen; try lia.
  - inversion Hl; subst. simpl. split.
    + unfold zfill. simpl. rewrite digit_not_sign by assumption. reflexivity.
    + split; [| reflexivity]. constructor; [reflexivity | assumption].
  - simpl. split; [reflexivity |]. split; [assumption | reflexivity].
Qed.

Lemma zfill4_digits (l : list ascii) :
  length l = 4%nat -> zfill 4 (str l) = str l.
Proof.
  intros Hlen. unfold zfill. rewrite length_str, Hlen. reflexivity.
Qed.

(** What the step does with an option whose three fields were captured. *)
Lemma iris_step_matched (o : Options.t) (arg opt : string) (w : world)
      (y m d : list ascii) :
  Options.iris_dateobs o = Some opt ->
  re_match iris_pattern opt
  = Some (<[3%nat := str d]> (<[2%nat := str m]> (<[1%nat := str y]> ∅))) ->
  all_digit y -> length y = 4%nat ->
  all_digit m -> (length m = 1 \/ length m = 2)%nat ->
  all_digit d -> (length d = 1 \/ length d = 2)%nat ->
  let v := str (pad2 d) +:+ "/" +:+ str (pad2 m) +:+ "/" +:+ str y in
  optionally_set_iris_dateobs o arg w =
    (inr tt,
     {| hdr := <["DATE-OBS" := VStr v]> (hdr w);
        disk := <["DATE-OBS" := VStr v]> (hdr w);
        out := out w ++
               (if Options.verbose o
                then [arg +:+ ": " +:+ py_str_opt (hdr w !! "DATE-OBS")
                          +:+ " [initial]";
                      arg +:+ ": " +:+ v +:+ " [adjusted]"]
                else []) |}).
Proof.
  intros Ho Hmatch Hy Hy4 Hm Hml Hd Hdl v.
  unfold optionally_set_iris_dateobs. rewrite Ho, Hmatch.
  unfold group. rewrite lookup_insert_eq.
  rewrite lookup_insert_ne by congruence. rewrite lookup_insert_eq.
  do 2 (rewrite lookup_insert_ne by congruence). rewrite lookup_insert_eq.
  cbn [str_or_None].
  destruct (zfill2_digits d Hd Hdl) as (-> & _ & _).
  destruct (zfill2_digits m Hm Hml) as (-> & _ & _).
  rewrite (zfill4_digits y Hy4). fold v.
  assert (Hk : kept v).
  { destruct (zfill2_digits d Hd Hdl) as (_ & Hpd & _).
    destruct (zfill2_digits m Hm Hml) as (_ & Hpm & _).
    apply kept_date; try assumption.
    intros ->. discriminate. }
  destruct Hk as [Ha Hs].
  destruct w as [h dk ou]. unfold_M. rewrite Ha, Hs. cbn [hdr disk out].
  destruct (h !! "DATE-OBS") as [old |] eqn:E.
  - rewrite bool_decide_eq_true_2 by eauto. cbn [hdr]. rewrite E. cbn.
    destruct (Options.verbose o); cbn.
    + rewrite <- app_assoc. reflexivity.
    + rewrite app_nil_r. reflexivity.
  - rewrite bool_decide_eq_false_2 by (intros [? ?]; discriminate). cbn.
    destruct (Options.verbose o); cbn.
    + rewrite <- app_assoc. reflexivity.
    + rewrite app_nil_r. reflexivity.
Qed.

(** C9. The legacy date is not checked against the calendar: every option
    made of four digits, a dash, one or two digits, a dash and one or two
    digits, between optional white space, overwrites DATE-OBS with
    day/month/year (day and month padded to two digits), whatever the
    numbers are; "2023-13-40" gives "40/13/2023". *)
Theorem iris_dateobs_no_calendar_check
        (o : Options.t) (arg : string) (w : world)
        (ws1 y m d ws2 : list ascii) :
  all_space ws1 -> all_space ws2 ->
  all_digit y -> length y = 4%nat ->
  all_digit m -> (length m = 1 \/ length m = 2)%nat ->
  all_digit d -> (length d = 1 \/ length d = 2)%nat ->
  Options.iris_dateobs o
  = Some (str (ws1 ++ y ++ ["-"%char] ++ m ++ ["-"%char] ++ d ++ ws2)) ->
  let v := str (pad2 d) +:+ "/" +:+ str (pad2 m) +:+ "/" +:+ str y in
  optionally_set_iris_dateobs o arg w =
    (inr tt,
     {| hdr := <["DATE-OBS" := VStr v]> (hdr w);
        disk := <["DATE-OBS" := VStr v]> (hdr w);
        out := out w ++
               (if Options.verbose o
                then [arg +:+ ": " +:+ py_str_opt (hdr w !! "DATE-OBS")
                          +:+ " [initial]";
                      arg +:+ ": " +:+ v +:+ " [adjusted]"]
                else []) |}).
Proof.
  intros Hs1 Hs2 Hy Hy4 Hm Hml Hd Hdl Ho.
  apply (iris_step_matched o arg _ w y m d Ho); try assumption.
  apply iris_pattern_matches; assumption.
Qed.

End DateAndCoordinates.

Section Coordinates.
Import PyStr Re.
Local Open Scope list_scope.

Lemma get_hd_m_s_str_matched (prefix : re) (input : string) (caps : captures)
      (g1 g3 g4 : string) :
  re_match (hd_m_s_pattern prefix) input = Some caps ->
  group caps 1 = Some g1 -> group caps 3 = Some g3 -> group caps 4 = Some g4 ->
  get_hd_m_s_str input prefix = Some (g1 +:+ " " +:+ g3 +:+ " " +:+ g4).
Proof.
  intros Hm H1 H3 H4. unfold get_hd_m_s_str. rewrite Hm, H1, H3, H4.
  reflexivity.
Qed.

(** Colon-separated digit fields of any length, with an optional fraction
    of the seconds and optional white space around, are reformatted with
    spaces. *)
Lemma get_hd_m_s_str_ra (ws1 h m s frac ws2 : list ascii) :
  all_space ws1 -> all_space ws2 ->
  all_digit h -> h <> [] -> all_digit m -> m <> [] ->
  all_digit s -> s <> [] -> fraction frac ->
  get_hd_m_s_str
    (str (ws1 ++ h ++ [":"%char] ++ m ++ [":"%char] ++ s ++ frac ++ ws2))
    prefix_none
  = Some (str h +:+ " " +:+ str m +:+ " " +:+ str (s ++ frac)).
Proof.
  intros Hs1 Hs2 Hh Hhne Hm Hmne Hs Hsne Hfrac.
  destruct (hd_m_s_pattern_matches prefix_none [] (fun c => <[2%nat := str []]> c)
              ws1 h m s frac ws2) as (caps & Hmatch & H1 & H3 & H4);
    try assumption.
  - intros rest. apply prefix_none_runs.
  - intros c k Hk. cbv beta. rewrite lookup_insert_ne by congruence.
    reflexivity.
  - cbn [app]. destruct h as [| a h']; [congruence |].
    inversion Hh; subst. simpl. apply digit_not_space. assumption.
  - cbn [app] in Hmatch, H1. rewrite app_nil_r, <- app_assoc in Hmatch.
    apply (get_hd_m_s_str_matched _ _ caps); assumption.
Qed.

(** The same for a declination, whose first field may carry a sign. *)
Lemma get_hd_m_s_str_dec (ws1 sg h m s frac ws2 : list ascii) :
  all_space ws1 -> all_space ws2 -> sign sg ->
  all_digit h -> h <> [] -> all_digit m -> m <> [] ->
  all_digit s -> s <> [] -> fraction frac ->
  get_hd_m_s_str
    (str (ws1 ++ sg ++ h ++ [":"%char] ++ m ++ [":"%char] ++ s ++ frac ++ ws2))
    prefix_sign
  = Some (str (sg ++ h) +:+ " " +:+ str m +:+ " " +:+ str (s ++ frac)).
Proof.
  intros Hs1 Hs2 Hsg Hh Hhne Hm Hmne Hs Hsne Hfrac.
  assert (Hrun : exists F2,
             (forall rest, runs (Opt (Group 2 prefix_sign)) sg (h ++ rest) F2)
             /\ (forall c (k : nat), k <> 2%nat -> F2 c !! k = c !! k)).
  { destruct Hsg as [-> | [-> | ->]].
    - exists (fun c => c). split; [| reflexivity]. intros rest.
      destruct h as [| a h']; [congruence |].
      inversion Hh as [| ? ? Ha Hh']; subst.
      apply runs_or_r; [| apply runs_empty].
      apply fails_group, fails_or; apply fails_lit; cbn [app];
        intros ->; discriminate.
    - exists (fun c => <[2%nat := str ["-"%char]]> c). split.
      + intros rest. apply runs_or_l.
        run_capture ltac:(apply runs_or_l, runs_lit).
      + intros c k Hk. cbv beta. rewrite lookup_insert_ne by congruence.
        reflexivity.
    - exists (fun c => <[2%nat := str ["+"%char]]> c). split.
      + intros rest. apply runs_or_l.
        run_capture ltac:(apply runs_or_r;
                          [apply fails_lit; intros H; discriminate H
                          | apply runs_lit]).
      + intros c k Hk. cbv beta. rewrite lookup_insert_ne by congruence.
        reflexivity. }
  destruct Hrun as (F2 & Hrun & HF2).
  destruct (hd_m_s_pattern_matches prefix_sign sg F2 ws1 h m s frac ws2)
    as (caps & Hmatch & H1 & H3 & H4); try assumption.
  - destruct Hsg as [-> | [-> | ->]]; try reflexivity.
    cbn [app]. destruct h as [| a h']; [congruence |].
    inversion Hh; subst. simpl. apply digit_not_space. assumption.
  - rewrite app_nil_r in Hmatch.
    rewrite <- (app_assoc sg h), <- (app_assoc s frac) in Hmatch.
    apply (get_hd_m_s_str_matched _ _ caps); assumption.
Qed.

(** The reformatted fields are stored as they are. *)
Lemma kept_coordinates (sg h m s frac : list ascii) :
  sign sg -> all_digit h -> all_digit m -> all_digit s -> s <> [] ->
  fraction frac ->
  kept (str (sg ++ h) +:+ " " +:+ str m +:+ " " +:+ str (s ++ frac)).
Proof.
  intros Hsg Hh Hm Hs Hsne Hfrac.
  assert (Hp : forallb printable (s ++ frac) = true).
  { rewrite forallb_app, all_digit_printable by assumption.
    destruct Hfrac as [-> | (f & -> & Hf & _)]; [reflexivity |].
    cbn [forallb]. rewrite all_digit_printable by assumption. reflexivity. }
  assert (He : ends_nonblank (s ++ frac)).
  { destruct Hfrac as [-> | (f & -> & Hf & Hfne)].
    - rewrite app_nil_r. apply all_digit_ends_nonblank. exact Hs.
    - apply ends_nonblank_app; [discriminate |].
      change ("."%char :: f) with (["."%char] ++ f).
      apply ends_nonblank_app; [exact Hfne |].
      apply all_digit_ends_nonblank. exact Hf. }
  assert (Hne : s ++ frac <> []).
  { destruct s; [congruence | discriminate]. }
  remember (s ++ frac) as sf eqn:Esf. clear Esf.
  change " " with (str [" "%char]). rewrite <- !str_app.
  apply kept_chars.
  - rewrite !forallb_app. cbn [forallb].
    rewrite (all_digit_printable h Hh), (all_digit_printable m Hm), Hp.
    destruct Hsg as [-> | [-> | ->]]; reflexivity.
  - rewrite !app_assoc. apply ends_nonblank_app; assumption.
Qed.

(** C10. The coordinate fields are not bounded: for every right ascension
    of the form digits:digits:digits, with an optional fraction of the
    seconds and optional white space around, whatever the number of digits
    and the size of the minutes and seconds, the value is accepted and RA
    holds the fields separated by spaces ("12:99:99" gives "12 99 99"); the
    same holds for a declination, with an optional sign, and DEC. *)
Theorem coordinates_fields_unbounded
        (o : Options.t) (arg : string) (w : world)
        (ws1 sg h m s frac ws2 : list ascii) :
  all_space ws1 -> all_space ws2 -> sign sg ->
  all_digit h -> h <> [] -> all_digit m -> m <> [] ->
  all_digit s -> s <> [] -> fraction frac ->
  (forall ra,
     ra = str (ws1 ++ h ++ [":"%char] ++ m ++ [":"%char] ++ s ++ frac ++ ws2) ->
     Options.ra o = Some ra ->
     set_ra o arg w =
       (inr tt,
        {| hdr := <["RA" := VStr (str h +:+ " " +:+ str m +:+ " "
                                   +:+ str (s ++ frac))]> (hdr w);
           disk := disk w;
           out := out w ++ (if Options.verbose o
                            then [arg +:+ ": Set RA to " +:+ ra] else []) |}))
  /\ (forall dec,
        dec = str (ws1 ++ sg ++ h ++ [":"%char] ++ m ++ [":"%char] ++ s
                       ++ frac ++ ws2) ->
        Options.dec o = Some dec ->
        set_dec o arg w =
          (inr tt,
           {| hdr := <["DEC" := VStr (str (sg ++ h) +:+ " " +:+ str m +:+ " "
                                       +:+ str (s ++ frac))]> (hdr w);
              disk := disk w;
              out := out w ++ (if Options.verbose o
                               then [arg +:+ ": Set DEC to " +:+ dec]
                               else []) |})).
Proof.
  intros Hs1 Hs2 Hsg Hh Hhne Hm Hmne Hs Hsne Hfrac. split.
  - intros ra -> Ho. unfold set_ra. rewrite Ho.
    rewrite get_hd_m_s_str_ra by assumption.
    pose proof (kept_coordinates [] h m s frac (or_introl eq_refl)
                  Hh Hm Hs Hsne Hfrac) as Hk.
    cbn [app] in Hk. unfold bind at 1. rewrite (setitem_kept _ _ _ Hk).
    destruct w as [hd dk ou]. unfold_M. cbn.
    destruct (Options.verbose o); cbn; [reflexivity |].
    rewrite app_nil_r. reflexivity.
  - intros dec -> Ho. unfold set_dec. rewrite Ho.
    rewrite get_hd_m_s_str_dec by assumption.
    pose proof (kept_coordinates sg h m s frac Hsg Hh Hm Hs Hsne Hfrac)
      as Hk.
    unfold bind at 1. rewrite (setitem_kept _ _ _ Hk).
    destruct w as [hd dk ou]. unfold_M. cbn.
    destruct (Options.verbose o); cbn; [reflexivity |].
    rewrite app_nil_r. reflexivity.
Qed.

(** C5 (the code at the failing input). The space-separated form that the
    help text of [--ra] announces, "12 34 56.7", does not match the
    pattern: [set_ra] prints the diagnostic and leaves the header as it
    was.  The colon-separated forms of the claim are accepted:
    "12:34:56.7" is stored as "12 34 56.7" and the declination "-5:6:7"
    as "-5 6 7". *)
Theorem set_ra_rejects_space_separated :
  get_hd_m_s_str "12 34 56.7" prefix_none = None
  /\ get_hd_m_s_str "12 34 56.7" prefix_sign = None
  /\ set_ra Ex.o_ra_spaces "f.fits" {| hdr := ∅; disk := ∅; out := [] |}
     = (inr tt, {| hdr := ∅; disk := ∅;
                   out := ["f.fits: Invalid RA '12 34 56.7'"] |})
  /\ get_hd_m_s_str "12:34:56.7" prefix_none = Some "12 34 56.7"
  /\ get_hd_m_s_str "-5:6:7" prefix_sign = Some "-5 6 7"
  /\ get_hd_m_s_str "34:5:6" prefix_sign = Some "34 5 6".
Proof.
  repeat split; vm_compute; reflexivity.
Qed.

End Coordinates.

(* ===================================================================== *)
(** ** What a match tells about the input *)
(* ===================================================================== *)

Section Reads.
Import PyStr Re.
Local Open Scope list_scope.

(** [reads r P]: whenever the pattern [r] leads to a match, it has
    consumed a prefix [w] of the input, leaving [rest], and turned the
    captures [c] into [c'], with [P w rest c c']. *)
Definition reads (r : re)
           (P : list ascii -> list ascii -> captures -> captures -> Prop)
  : Prop :=
  forall k pos s c x,
    mt r k pos s c = Some x ->
    exists w rest c',
      s = w ++ rest /\ P w rest c c'
      /\ k (length w + pos)%nat rest c' = Some x.

Lemma reads_weaken r (P Q : list ascii -> list ascii -> captures -> captures -> Prop) :
  reads r P -> (forall w rest c c', P w rest c c' -> Q w rest c c') ->
  reads r Q.
Proof.
  intros Hr HPQ k pos s c x H.
  apply Hr in H as (w & rest & c' & Hs & HP & H). eauto 10.
Qed.

Lemma reads_empty : reads Empty (fun w _ c c' => w = [] /\ c' = c).
Proof. intros k pos s c x H. exists [], s, c. auto. Qed.

Lemma reads_bos : reads Bos (fun w _ c c' => w = [] /\ c' = c).
Proof.
  intros k pos s c x H. cbn [mt] in H.
  destruct (pos =? 0)%nat; [| discriminate]. exists [], s, c. auto.
Qed.

Lemma reads_eos :
  reads Eos (fun w rest c c' =>
               w = [] /\ (rest = [] \/ rest = [newline]) /\ c' = c).
Proof.
  intros k pos s c x H. cbn [mt] in H.
  destruct s as [| a [| b s']]; try discriminate.
  - exists [], [], c. repeat split; auto.
  - destruct (Ascii.eqb a newline) eqn:E; [| discriminate].
    apply Ascii.eqb_eq in E. subst a. exists [], [newline], c.
    repeat split; auto.
Qed.

Lemma reads_lit (a : ascii) : reads (Lit a) (fun w _ c c' => w = [a] /\ c' = c).
Proof.
  intros k pos s c x H. apply mt_lit_inv in H as (s' & -> & H).
  exists [a], s', c. auto.
Qed.

Lemma reads_class (p : ascii -> bool) :
  reads (Class p)
        (fun w _ c c' => (exists a, w = [a] /\ p a = true) /\ c' = c).
Proof.
  intros k pos s c x H. apply mt_class_inv in H as (a & s' & -> & Ha & H).
  exists [a], s', c. eauto 10.
Qed.

Lemma reads_star_class (p : ascii -> bool) :
  reads (Star (Class p))
        (fun w _ c c' => Forall (fun a => p a = true) w /\ c' = c).
Proof.
  intros k pos s c x H.
  apply mt_star_class_inv in H as (w & rest & -> & Hw & H).
  exists w, rest, c. auto.
Qed.

Lemma reads_cat r1 r2
      (P1 P2 : list ascii -> list ascii -> captures -> captures -> Prop) :
  reads r1 P1 -> reads r2 P2 ->
  reads (Cat r1 r2)
        (fun w rest c c'' =>
           exists w1 w2 c',
             w = w1 ++ w2 /\ P1 w1 (w2 ++ rest) c c' /\ P2 w2 rest c' c'').
Proof.
  intros H1 H2 k pos s c x H. cbn [mt] in H.
  apply H1 in H as (w1 & rest1 & c' & -> & HP1 & H).
  apply H2 in H as (w2 & rest & c'' & -> & HP2 & H).
  exists (w1 ++ w2), rest, c''.
  split; [apply app_assoc |].
  split; [exists w1, w2, c'; auto |].
  rewrite length_app. rewrite <- H. f_equal. lia.
Qed.

Lemma reads_or r1 r2
      (P1 P2 : list ascii -> list ascii -> captures -> captures -> Prop) :
  reads r1 P1 -> reads r2 P2 ->
  reads (Or r1 r2)
        (fun w rest c c' => P1 w rest c c' \/ P2 w rest c c').
Proof.
  intros H1 H2 k pos s c x H. cbn [mt] in H.
  destruct (mt r1 k pos s c) as [y |] eqn:E.
  - inversion H; subst y.
    apply H1 in E as (w & rest & c' & Hs & HP & E). eauto 10.
  - apply H2 in H as (w & rest & c' & Hs & HP & H). eauto 10.
Qed.

Lemma reads_group (g : nat) r
      (P : list ascii -> list ascii -> captures -> captures -> Prop) :
  reads r P ->
  reads (Group g r)
        (fun w rest c c'' =>
           exists c', P w rest c c' /\ c'' = <[g := str w]> c').
Proof.
  intros Hr k pos s c x H. cbn [mt] in H.
  apply Hr in H as (w & rest & c' & -> & HP & H).
  replace (length w + pos - pos)%nat with (length w) in H by lia.
  rewrite take_app_length in H.
  exists w, rest, (<[g := str w]> c'). eauto 10.
Qed.

(** One or more characters of a class. *)
Lemma reads_plus_class (p : ascii -> bool) :
  reads (Plus (Class p))
        (fun w _ c c' =>
           Forall (fun a => p a = true) w /\ w <> [] /\ c' = c).
Proof.
  unfold Plus.
  eapply reads_weaken;
    [apply reads_cat; [apply reads_class | apply reads_star_class] |].
  cbv beta.
  intros w rest c c' (w1 & w2 & c1 & -> & [(a & -> & Ha) ->] & [Hw2 ->]).
  split; [constructor; assumption |]. split; [discriminate | reflexivity].
Qed.

(** From a capture-free pattern. *)
Lemma reads_consumes r (P : list ascii -> Prop) :
  consumes r P -> reads r (fun w _ c c' => P w /\ c' = c).
Proof.
  intros Hr k pos s c x H. apply Hr in H as (w & rest & -> & HP & H).
  exists w, rest, c. auto.
Qed.

(** A match of the whole string. *)
Lemma re_match_reads r P (s : string) (caps : captures) :
  reads r P ->
  re_match r s = Some caps ->
  exists w rest, chars s = w ++ rest /\ P w rest ∅ caps.
Proof.
  intros Hr H. unfold re_match in H.
  apply Hr in H as (w & rest & c' & Hs & HP & H).
  inversion H; subst c'. eauto.
Qed.

End Reads.

Ltac reads_step :=
  first
    [ apply reads_bos | apply reads_eos | apply reads_empty
    | apply reads_lit
    | eapply reads_consumes; apply consumes_rep_class
    | eapply reads_consumes; apply consumes_rep12_class
    | apply reads_plus_class
    | apply reads_star_class
    | apply reads_class
    | apply reads_group
    | apply reads_or
    | apply reads_cat ].

Ltac reads_destruct :=
  repeat match goal with
         | H : ex _ |- _ => destruct H
         | H : _ /\ _ |- _ => destruct H
         end.

Section PatternInputs.
Import PyStr Re.
Local Open Scope list_scope.

Lemma all_space_newline (rest : list ascii) :
  rest = [] \/ rest = [newline] -> all_space rest.
Proof.
  intros [-> | ->]; [constructor |].
  constructor; [reflexivity | constructor].
Qed.

(** A string that matches the pattern of the legacy date is four digits,
    a dash, one or two digits, a dash and one or two digits, between
    optional white space, and nothing else. *)
Lemma iris_pattern_input (s : string) (caps : captures) :
  re_match iris_pattern s = Some caps ->
  exists ws1 y m d ws2,
    all_space ws1 /\ all_space ws2
    /\ all_digit y /\ length y = 4%nat
    /\ all_digit m /\ (length m = 1 \/ length m = 2)%nat
    /\ all_digit d /\ (length d = 1 \/ length d = 2)%nat
    /\ s = str (ws1 ++ y ++ ["-"%char] ++ m ++ ["-"%char] ++ d ++ ws2)
    /\ caps = <[3%nat := str d]> (<[2%nat := str m]> (<[1%nat := str y]> ∅)).
Proof.
  intros H. unfold iris_pattern, digit, space in H.
  eapply re_match_reads in H; [| repeat reads_step].
  cbv beta in H. reads_destruct. subst.
  match goal with
  | H : chars s = ([] ++ ?a ++ ?y ++ _ ++ ?m ++ _ ++ ?d ++ ?b ++ []) ++ ?r
    |- _ => exists a, y, m, d, (b ++ r)
  end.
  repeat split; try assumption.
  - apply Forall_app. split; [assumption |].
    apply all_space_newline. assumption.
  - rewrite <- (str_chars s). f_equal.
    match goal with H : chars s = _ |- _ => rewrite H end.
    cbn [app]. rewrite app_nil_r.
    repeat (rewrite <- app_assoc; cbn [app]). reflexivity.
Qed.

(** A string that matches the pattern of the coordinates is an optional
    prefix, digits, a colon, digits, a colon, digits and an optional
    fraction, between optional white space, and nothing else; the groups
    1, 3 and 4 are the first field with its prefix, the second field and
    the third field with its fraction. *)
Lemma hd_m_s_pattern_input (prefix : re) (S : list ascii -> Prop)
      (input : string) (caps : captures) :
  reads prefix (fun w _ c c' => S w /\ c' = c) ->
  re_match (hd_m_s_pattern prefix) input = Some caps ->
  exists ws1 sg h m s frac ws2,
    all_space ws1 /\ all_space ws2 /\ (sg = [] \/ S sg)
    /\ all_digit h /\ h <> [] /\ all_digit m /\ m <> []
    /\ all_digit s /\ s <> [] /\ fraction frac
    /\ input = str (ws1 ++ sg ++ h ++ [":"%char] ++ m ++ [":"%char]
                        ++ s ++ frac ++ ws2)
    /\ group caps 1 = Some (str (sg ++ h))
    /\ group caps 3 = Some (str m)
    /\ group caps 4 = Some (str (s ++ frac)).
Proof.
  intros Hp H. unfold hd_m_s_pattern, Opt, digit, space in H.
  eapply re_match_reads in H;
    [| repeat first [exact Hp | reads_step]].
  cbv beta in H. reads_destruct. subst.
  match goal with
  | H : chars input
        = ([] ++ ?a ++ (?sg ++ ?h) ++ _ ++ ?m ++ _ ++ (?s ++ ?f) ++ ?b ++ [])
          ++ ?r |- _ =>
      exists a, sg, h, m, s, f, (b ++ r)
  end.
  repeat split; try assumption.
  all: try (unfold group;
            repeat match goal with
                   | H : _ \/ _ |- _ => destruct H
                   end;
            reads_destruct; subst;
            repeat (rewrite lookup_insert_ne by discriminate);
            solve [apply lookup_insert_eq]).
  - apply Forall_app. split; [assumption |].
    apply all_space_newline. assumption.
  - match goal with
    | H : (exists c', (S _ /\ _) /\ _) \/ _ |- _ =>
        destruct H as [(? & [? _] & _) | [? _]]; auto
    end.
  - match goal with
    | H : (exists c', (exists w1 w2 c0, _) /\ _) \/ _ |- fraction ?f =>
        destruct H as [(? & (w1 & w2 & ? & -> & [-> _] & ? & ? & _) & _)
                      | [-> _]]
    end.
    + right. exists w2. auto.
    + left. reflexivity.
  - rewrite <- (str_chars input). f_equal.
    match goal with H : chars input = _ |- _ => rewrite H end.
    cbn [app]. rewrite app_nil_r.
    repeat (rewrite <- app_assoc; cbn [app]). reflexivity.
Qed.

Lemma reads_prefix_none :
  reads prefix_none (fun w _ c c' => w = [] /\ c' = c).
Proof. apply reads_empty. Qed.

Lemma reads_prefix_sign :
  reads prefix_sign
        (fun w _ c c' => (w = ["-"%char] \/ w = ["+"%char]) /\ c' = c).
Proof.
  unfold prefix_sign.
  eapply reads_weaken; [apply reads_or; apply reads_lit |].
  cbv beta. intros w rest c c' [[-> ->] | [-> ->]]; auto.
Qed.

(** X9. A right ascension of ASCII characters is accepted exactly when it
    is digits, a colon, digits, a colon, digits and an optional fraction
    (a point and digits), between optional white space; the value stored
    is then the three fields separated by single spaces.  Hence a sign, a
    missing field, fields separated by spaces and anything after the
    seconds but white space are all rejected. *)
Theorem ra_accepted_exactly (input out : string) :
  isascii input = true ->
  get_hd_m_s_str input prefix_none = Some out
  <-> exists ws1 h m s frac ws2,
        all_space ws1 /\ all_space ws2
        /\ all_digit h /\ h <> [] /\ all_digit m /\ m <> []
        /\ all_digit s /\ s <> [] /\ fraction frac
        /\ input = str (ws1 ++ h ++ [":"%char] ++ m ++ [":"%char]
                            ++ s ++ frac ++ ws2)
        /\ out = str h +:+ " " +:+ str m +:+ " " +:+ str (s ++ frac).
Proof.
  intros _. split.
  - unfold get_hd_m_s_str. intros H.
    destruct (re_match (hd_m_s_pattern prefix_none) input) as [caps |] eqn:E;
      [| discriminate].
    apply (hd_m_s_pattern_input _ _ _ _ reads_prefix_none) in E
      as (ws1 & sg & h & m & s0 & frac & ws2 & H1 & H2 & Hsg & H3 & H4 & H5
          & H6 & H7 & H8 & H9 & Hin & G1 & G3 & G4).
    assert (sg = []) as -> by (destruct Hsg; assumption).
    rewrite G1, G3, G4 in H. cbn [str_or_None app] in H.
    injection H as <-.
    exists ws1, h, m, s0, frac, ws2. repeat split; assumption.
  - intros (ws1 & h & m & s0 & frac & ws2 & H1 & H2 & H3 & H4 & H5 & H6
            & H7 & H8 & H9 & -> & ->).
    apply get_hd_m_s_str_ra; assumption.
Qed.

(** X10. A declination of ASCII characters is accepted exactly when it is
    an optional sign ([-] or [+]) followed by the same form as a right
    ascension; the sign is kept in front of the first field of the value
    stored. *)
Theorem dec_accepted_exactly (input out : string) :
  isascii input = true ->
  get_hd_m_s_str input prefix_sign = Some out
  <-> exists ws1 sg h m s frac ws2,
        all_space ws1 /\ all_space ws2 /\ sign sg
        /\ all_digit h /\ h <> [] /\ all_digit m /\ m <> []
        /\ all_digit s /\ s <> [] /\ fraction frac
        /\ input = str (ws1 ++ sg ++ h ++ [":"%char] ++ m ++ [":"%char]
                            ++ s ++ frac ++ ws2)
        /\ out = str (sg ++ h) +:+ " " +:+ str m +:+ " "
                  +:+ str (s ++ frac).
Proof.
  intros _. split.
  - unfold get_hd_m_s_str. intros H.
    destruct (re_match (hd_m_s_pattern prefix_sign) input) as [caps |] eqn:E;
      [| discriminate].
    apply (hd_m_s_pattern_input _ _ _ _ reads_prefix_sign) in E
      as (ws1 & sg & h & m & s0 & frac & ws2 & H1 & H2 & Hsg & H3 & H4 & H5
          & H6 & H7 & H8 & H9 & Hin & G1 & G3 & G4).
    rewrite G1, G3, G4 in H. cbn [str_or_None] in H.
    injection H as <-.
    exists ws1, sg, h, m, s0, frac, ws2. repeat split; assumption.
  - intros (ws1 & sg & h & m & s0 & frac & ws2 & H1 & H2 & Hsg & H3 & H4
            & H5 & H6 & H7 & H8 & H9 & -> & ->).
    apply get_hd_m_s_str_dec; assumption.
Qed.

(** X11. An option of the legacy date of ASCII characters is accepted
    exactly when it is four digits, a dash, one or two digits, a dash and
    one or two digits, between optional white space: a year of two
    digits, a missing field, another separator or text after the day are
    rejected. *)
Theorem iris_option_accepted_exactly (opt : string) :
  isascii opt = true ->
  (exists caps, re_match iris_pattern opt = Some caps)
  <-> exists ws1 y m d ws2,
        all_space ws1 /\ all_space ws2
        /\ all_digit y /\ length y = 4%nat
        /\ all_digit m /\ (length m = 1 \/ length m = 2)%nat
        /\ all_digit d /\ (length d = 1 \/ length d = 2)%nat
        /\ opt = str (ws1 ++ y ++ ["-"%char] ++ m ++ ["-"%char] ++ d ++ ws2).
Proof.
  intros _. split.
  - intros [caps H]. apply iris_pattern_input in H
      as (ws1 & y & m & d & ws2 & H). exists ws1, y, m, d, ws2. tauto.
  - intros (ws1 & y & m & d & ws2 & H1 & H2 & H3 & H4 & H5 & H6 & H7 & H8
            & ->).
    eexists. apply iris_pattern_matches; assumption.
Qed.

End PatternInputs.

(* ===================================================================== *)
(** ** The legacy date *)
(* ===================================================================== *)

Section LegacyDate.
Context `{PF : PyFloat} `{TL : TimeLib}.
Import PyStr Re.
Local Open Scope list_scope.

(** The form of a legacy date: four digits, a dash, one or two digits, a
    dash and one or two digits, between optional white space. *)
Definition legacy_date (opt : string) (ws1 y m d ws2 : list ascii) : Prop :=
  all_space ws1 /\ all_space ws2
  /\ all_digit y /\ length y = 4%nat
  /\ all_digit m /\ (length m = 1 \/ length m = 2)%nat
  /\ all_digit d /\ (length d = 1 \/ length d = 2)%nat
  /\ opt = str (ws1 ++ y ++ ["-"%char] ++ m ++ ["-"%char] ++ d ++ ws2).


End LegacyDate.

(* ===================================================================== *)
(** ** The time adjustment *)
(* ===================================================================== *)

Section TimeAdjustment.
Context `{PF : PyFloat} `{TL : TimeLib}.
Import PyStr Re.
Local Open Scope list_scope.

Lemma split_chars_no_sep (sep : ascii) (l : list ascii) :
  sep ∉ l -> split_chars sep l = [l].
Proof.
  induction l as [| a l IH]; intros Hn; [reflexivity |].
  apply not_elem_of_cons in Hn as [Hne Hn]. simpl.
  destruct (Ascii.eqb a sep) eqn:E.
  - apply Ascii.eqb_eq in E. congruence.
  - rewrite (IH Hn). reflexivity.
Qed.

Lemma split_chars_field (sep : ascii) (l1 l2 : list ascii) :
  sep ∉ l1 ->
  split_chars sep (l1 ++ [sep] ++ l2) = l1 :: split_chars sep l2.
Proof.
  induction l1 as [| a l1 IH]; intros Hn.
  - simpl. rewrite Ascii.eqb_refl. reflexivity.
  - apply not_elem_of_cons in Hn as [Hne Hn]. simpl.
    destruct (Ascii.eqb a sep) eqn:E.
    + apply Ascii.eqb_eq in E. congruence.
    + simpl in IH. rewrite (IH Hn). reflexivity.
Qed.

(** A date of three fields separated by slashes. *)
Lemma split_date (dd mm yyyy : list ascii) :
  "/"%char ∉ dd -> "/"%char ∉ mm -> "/"%char ∉ yyyy ->
  split "/" (str (dd ++ ["/"%char] ++ mm ++ ["/"%char] ++ yyyy))
  = [str dd; str mm; str yyyy].
Proof.
  intros Hd Hm Hy. unfold split. rewrite chars_str.
  rewrite (split_chars_field _ _ _ Hd), (split_chars_field _ _ _ Hm),
    (split_chars_no_sep _ _ Hy).
  reflexivity.
Qed.

(** C2 (as the code behaves). Extraction of the full timestamp: with
    UT-START and a DATE-OBS of three fields separated by slashes
    (DD/MM/YYYY), the result is YYYY-MM-DD, the letter T and the value of
    UT-START, and UT-START is deleted from the header; with UT-START and a
    DATE-OBS string of another form (an ISO date-time, for one), the
    diagnostic is printed, nothing is extracted and the time adjustment
    changes nothing; with DATE-OBS and no UT-START, the value of DATE-OBS
    is used as it is and the header stays as it was; without DATE-OBS the
    time adjustment prints the diagnostic and changes nothing, so that no
    DATE-OBS, MIDPOINT or JD appears. *)
Theorem extract_full_dateobs_cases (o : Options.t) (arg : string) (w : world) :
  (forall u dd mm yyyy,
     hdr w !! "UT-START" = Some u ->
     hdr w !! "DATE-OBS"
     = Some (VStr (str (dd ++ ["/"%char] ++ mm ++ ["/"%char] ++ yyyy))) ->
     "/"%char ∉ dd -> "/"%char ∉ mm -> "/"%char ∉ yyyy ->
     extract_full_dateobs arg w
     = (inr (Some (VStr (str yyyy +:+ "-" +:+ str mm +:+ "-" +:+ str dd
                         +:+ "T" +:+ py_str u))),
        {| hdr := delete "UT-START" (hdr w); disk := disk w; out := out w |}))
  /\ (forall u s,
        hdr w !! "UT-START" = Some u ->
        hdr w !! "DATE-OBS" = Some (VStr s) ->
        length (split "/" s) <> 3%nat ->
        extract_full_dateobs arg w
        = (inr None,
           {| hdr := hdr w; disk := disk w;
              out := out w ++ [arg +:+ ": DATE-OBS format not DD/MM/YYYY"] |})
        /\ (Options.adjust_time o = true ->
            set_times o arg w
            = (inr tt,
               {| hdr := hdr w; disk := disk w;
                  out := out w
                         ++ [arg +:+ ": DATE-OBS format not DD/MM/YYYY"] |})))
  /\ (forall v,
        hdr w !! "UT-START" = None -> hdr w !! "DATE-OBS" = Some v ->
        extract_full_dateobs arg w = (inr (Some v), w))
  /\ (hdr w !! "DATE-OBS" = None ->
      Options.adjust_time o = true ->
      set_times o arg w
      = (inr tt,
         {| hdr := hdr w; disk := disk w;
            out := out w ++ [arg +:+ " does not contain DATE-OBS keyword"] |})).
Proof.
  split; [| split; [| split]].
  - intros u dd mm yyyy Hu Hd Hdd Hmm Hyy.
    unfold extract_full_dateobs.
    unfold bind at 1. rewrite (contains_true _ _ _ Hu).
    unfold bind at 1. rewrite (contains_true _ _ _ Hd).
    cbn [andb]. unfold bind, getitem. rewrite Hu, Hd.
    unfold str_split, ret. rewrite (split_date dd mm yyyy Hdd Hmm Hyy).
    unfold delitem. rewrite Hu. destruct w; reflexivity.
  - intros u s Hu Hd Hlen.
    assert (Hext : extract_full_dateobs arg w
                   = (inr None,
                      {| hdr := hdr w; disk := disk w;
                         out := out w ++ [arg +:+ ": DATE-OBS format not DD/MM/YYYY"] |})).
    { unfold extract_full_dateobs.
      unfold bind at 1. rewrite (contains_true _ _ _ Hu).
      unfold bind at 1. rewrite (contains_true _ _ _ Hd).
      cbn [andb]. unfold bind, getitem. rewrite Hu, Hd.
      unfold str_split, ret.
      destruct (split "/" s) as [| f1 [| f2 [| f3 [| f4 fs]]]];
        simpl in Hlen; try lia; destruct w; reflexivity. }
    split; [exact Hext |].
    intros Ha. unfold set_times. rewrite Ha. cbn [negb].
    unfold bind at 1. rewrite Hext. reflexivity.
  - intros v Hu Hd. unfold extract_full_dateobs.
    unfold bind at 1. rewrite (contains_false _ _ Hu).
    unfold bind at 1. rewrite (contains_true _ _ _ Hd).
    cbn [andb]. unfold bind, getitem, ret. rewrite Hd. reflexivity.
  - intros Hd Ha. unfold set_times. rewrite Ha. cbn [negb].
    unfold bind at 1. unfold extract_full_dateobs.
    unfold bind at 1.
    destruct (contains "UT-START" w) as [[e | b] w'] eqn:E.
    { unfold contains in E. discriminate. }
    assert (w' = w) by (unfold contains in E; congruence). subst w'.
    unfold bind at 1. rewrite (contains_false _ _ Hd).
    rewrite andb_false_r. destruct w; reflexivity.
Qed.

(** [float(v)] of a header value, when it does not raise. *)
Definition value_as_float (v : hval) : option float :=
  match v with
  | VStr s => float_of_str s
  | VInt z => float_of_Z z
  | VFloat f => Some f
  end.

Lemma pyfloat_value (v : hval) (f : float) (w : world) :
  value_as_float v = Some f -> pyfloat v w = (inr f, w).
Proof.
  destruct v as [s | z | g]; simpl; unfold pyfloat_str.
  - intros ->. reflexivity.
  - intros ->. reflexivity.
  - intros [= ->]. reflexivity.
Qed.

(** The exposure used for the midpoint: the option when it is not zero,
    else the EXPTIME field when the header has one, else the (zero)
    option. *)
Definition exposure (e : float) (h : header) (E : float) : Prop :=
  (PrimFloat.eqb e 0 = false /\ E = e)
  \/ (PrimFloat.eqb e 0 = true /\
      exists v, h !! "EXPTIME" = Some v /\ value_as_float v = Some E)
  \/ (PrimFloat.eqb e 0 = true /\ h !! "EXPTIME" = None /\ E = e).


End TimeAdjustment.

(* ===================================================================== *)
(** ** What the steps touch *)
(* ===================================================================== *)

Section HeaderFrame.
Context `{PF : PyFloat} `{TL : TimeLib}.
Import PyStr Re.
Local Open Scope list_scope.

(** A computation that writes nothing to the file, changes no keyword
    outside [ks], and whose result and header depend on the header it
    starts from only (not on the file or on what was printed). *)
Definition header_local {A} (ks : list string) (m : M A) : Prop :=
  forall w,
    disk (snd (m w)) = disk w
    /\ (forall k, k ∉ ks -> hdr (snd (m w)) !! k = hdr w !! k)
    /\ (forall v, hdr v = hdr w ->
          fst (m v) = fst (m w) /\ hdr (snd (m v)) = hdr (snd (m w))).

Lemma local_ret {A} (ks : list string) (a : A) : header_local ks (ret a).
Proof. intros w. cbn. auto. Qed.

Lemma local_raise {A} (ks : list string) (e : exn) :
  header_local ks (@raise A e).
Proof. intros w. cbn. auto. Qed.

Lemma local_print (ks : list string) (line : string) :
  header_local ks (print line).
Proof. intros w. cbn. auto. Qed.

Lemma local_contains (ks : list string) (key : string) :
  header_local ks (contains key).
Proof.
  intros w. cbn. repeat split; auto.
  rewrite H. reflexivity.
Qed.

Lemma local_getitem (ks : list string) (key : string) :
  header_local ks (getitem key).
Proof.
  intros w. unfold getitem.
  repeat split; try (destruct (hdr w !! key); reflexivity);
    rewrite H; destruct (hdr w !! key); cbn; auto.
Qed.

Lemma local_setitem (ks : list string) (key : string) (x : hval) :
  key ∈ ks -> header_local ks (setitem key x).
Proof.
  intros Hin w. unfold setitem.
  destruct (assignable x); cbn; repeat split; auto.
  - intros k Hk. apply lookup_insert_ne. intros ->. contradiction.
  - rewrite H. reflexivity.
Qed.

Lemma local_library {A} (ks : list string) (x : option A) :
  header_local ks (library x).
Proof. destruct x; [apply local_ret | apply local_raise]. Qed.

Lemma local_delitem (ks : list string) (key : string) :
  key ∈ ks -> header_local ks (delitem key).
Proof.
  intros Hin w. unfold delitem. repeat split.
  - destruct (hdr w !! key); reflexivity.
  - intros k Hk. destruct (hdr w !! key); cbn; [| reflexivity].
    apply lookup_delete_ne. intros ->. contradiction.
  - rewrite H. destruct (hdr w !! key); reflexivity.
  - rewrite H. destruct (hdr w !! key); cbn; rewrite ?H; reflexivity.
Qed.

Lemma local_bind {A B} (ks : list string) (m : M A) (c : A -> M B) :
  header_local ks m -> (forall a, header_local ks (c a)) ->
  header_local ks (bind m c).
Proof.
  intros Hm Hc w. destruct (Hm w) as (Hd & Hf & Hdet). unfold bind.
  destruct (m w) as [[e | a] w1] eqn:E; cbn [fst snd] in *.
  - split; [exact Hd |]. split; [exact Hf |].
    intros v Hv. destruct (Hdet v Hv) as [H1 H2].
    destruct (m v) as [[e' | a'] v1]; cbn [fst snd] in *;
      [split; congruence | discriminate].
  - destruct (Hc a w1) as (Hd1 & Hf1 & Hdet1).
    split; [congruence |].
    split; [intros k Hk; rewrite (Hf1 k Hk); apply Hf; exact Hk |].
    intros v Hv. destruct (Hdet v Hv) as [H1 H2].
    destruct (m v) as [[e' | a'] v1]; cbn [fst snd] in *; [discriminate |].
    injection H1 as ->. apply Hdet1. exact H2.
Qed.

Lemma local_when (ks : list string) (b : bool) (m : M unit) :
  header_local ks m -> header_local ks (when b m).
Proof. intros Hm. destruct b; [exact Hm | apply local_ret]. Qed.

End HeaderFrame.

Ltac local_step :=
  match goal with
  | |- header_local _ (bind _ _) => apply local_bind; [| intros ?]
  | |- header_local _ (ret _) => apply local_ret
  | |- header_local _ (raise _) => apply local_raise
  | |- header_local _ (print _) => apply local_print
  | |- header_local _ (contains _) => apply local_contains
  | |- header_local _ (getitem _) => apply local_getitem
  | |- header_local _ (setitem _ _) =>
      apply local_setitem; repeat constructor
  | |- header_local _ (delitem _) =>
      apply local_delitem; repeat constructor
  | |- header_local _ (when _ _) => apply local_when
  | |- header_local _ (library _) => apply local_library
  | |- header_local _ (if ?b then _ else _) => destruct b
  | |- header_local _ (match ?x with _ => _ end) => destruct x
  | |- header_local _ (pyfloat_str _) => unfold pyfloat_str
  | |- header_local _ (pyfloat _) => unfold pyfloat
  | |- header_local _ (str_split _ _) => unfold str_split
  | |- header_local _ (Time_new _) => unfold Time_new
  | |- header_local _ _ => progress cbv zeta
  end.

Section TimeFrame.
Context `{PF : PyFloat} `{TL : TimeLib}.
Import PyStr Re.
Local Open Scope list_scope.

(** The keywords the time adjustment writes. *)
Definition time_keys : list string := ["DATE-OBS"; "MIDPOINT"; "JD"].

(** The part of [set_times] under [if full_dateobs is not None]. *)
Definition adjust_with (o : Options.t) (arg : string) (full : hval)
  : M unit :=
  initial_t <- Time_new full ;;
  when (Options.verbose o)
    (start <- library (Time_isot initial_t) ;;
     print (arg +:+ ": " +:+ start +:+ " [start]")) ;;
  tz_offset <- pyfloat_str (Options.tz_offset o) ;;
  adjusted_t <-
    library (Time_add_sec initial_t (tz_offset * 60 * 60)%float) ;;
  exp_time0 <- pyfloat_str (Options.exp_time o) ;;
  has <- contains "EXPTIME" ;;
  exp_time <- (if PrimFloat.eqb exp_time0 0 && has
               then v <- getitem "EXPTIME" ;; pyfloat v
               else ret exp_time0) ;;
  midpoint_t <-
    library (Time_add_sec adjusted_t (exp_time / 2)%float) ;;
  new_date_obs <-
    (if Options.use_midpoint_for_dateobs o
     then print (arg +:+ ": using midpoint for DATE-OBS") ;;
          library (Time_isot midpoint_t)
     else library (Time_isot adjusted_t)) ;;
  setitem "DATE-OBS" (VStr new_date_obs) ;;
  when (Options.verbose o)
    (print (arg +:+ ": " +:+ new_date_obs +:+ " [adjusted]")) ;;
  midpoint <- library (Time_isot midpoint_t) ;;
  setitem "MIDPOINT" (VStr midpoint) ;;
  when (Options.verbose o)
    (midpoint' <- library (Time_isot midpoint_t) ;;
     print (arg +:+ ": " +:+ midpoint' +:+ " [midpoint]")) ;;
  jd <- library (Time_jd midpoint_t) ;;
  setitem "JD" (VFloat jd) ;;
  when (Options.verbose o)
    (jd' <- library (Time_jd midpoint_t) ;;
     print (arg +:+ ": " +:+ float_repr jd' +:+ " [JD]")).

Lemma set_times_eq (o : Options.t) (arg : string) :
  set_times o arg
  = if negb (Options.adjust_time o) then ret tt
    else full_dateobs <- extract_full_dateobs arg ;;
         match full_dateobs with
         | None => ret tt
         | Some full => adjust_with o arg full
         end.
Proof. reflexivity. Qed.

Lemma adjust_with_local (o : Options.t) (arg : string) (full : hval) :
  header_local time_keys (adjust_with o arg full).
Proof.
  unfold adjust_with, time_keys. repeat local_step.
Qed.

Lemma extract_full_dateobs_local (arg : string) :
  header_local ("UT-START" :: time_keys) (extract_full_dateobs arg).
Proof.
  unfold extract_full_dateobs, time_keys. repeat local_step.
Qed.

End TimeFrame.

(* ===================================================================== *)
(** ** Outcomes of a computation *)
(* ===================================================================== *)

Section Outcomes.
Local Open Scope list_scope.

(** [post m w Qe Qr]: run from [w], [m] either raises [e] in a world that
    satisfies [Qe e] or returns [a] in a world that satisfies [Qr a]. *)
Definition post {A} (m : M A) (w : world)
           (Qe : exn -> world -> Prop) (Qr : A -> world -> Prop) : Prop :=
  match m w with
  | (inl e, w') => Qe e w'
  | (inr a, w') => Qr a w'
  end.

Lemma post_ret {A} (a : A) w Qe (Qr : A -> world -> Prop) :
  Qr a w -> post (ret a) w Qe Qr.
Proof. exact (fun H => H). Qed.

Lemma post_raise {A} (e : exn) w Qe (Qr : A -> world -> Prop) :
  Qe e w -> post (raise e) w Qe Qr.
Proof. exact (fun H => H). Qed.

Lemma post_print (line : string) w Qe (Qr : unit -> world -> Prop) :
  Qr tt {| hdr := hdr w; disk := disk w; out := out w ++ [line] |} ->
  post (print line) w Qe Qr.
Proof. exact (fun H => H). Qed.

Lemma post_contains (k : string) w Qe (Qr : bool -> world -> Prop) :
  match hdr w !! k with
  | Some _ => Qr true w
  | None => Qr false w
  end ->
  post (contains k) w Qe Qr.
Proof.
  unfold post, contains. destruct (hdr w !! k); exact (fun H => H).
Qed.

Lemma post_getitem (k : string) w Qe (Qr : hval -> world -> Prop) :
  match hdr w !! k with
  | Some v => Qr v w
  | None => Qe (KeyError k) w
  end ->
  post (getitem k) w Qe Qr.
Proof.
  unfold post, getitem. destruct (hdr w !! k); exact (fun H => H).
Qed.

Lemma post_setitem (k : string) (v : hval) w Qe
      (Qr : unit -> world -> Prop) :
  (if assignable v
   then Qr tt {| hdr := <[k := as_stored v]> (hdr w); disk := disk w;
                 out := out w |}
   else Qe ValueError w) ->
  post (setitem k v) w Qe Qr.
Proof.
  unfold post, setitem. destruct (assignable v); exact (fun H => H).
Qed.

Lemma post_library {A} (x : option A) w Qe (Qr : A -> world -> Prop) :
  match x with
  | Some a => Qr a w
  | None => Qe LibraryError w
  end ->
  post (library x) w Qe Qr.
Proof. destruct x; exact (fun H => H). Qed.

Lemma post_delitem (k : string) w Qe (Qr : unit -> world -> Prop) :
  match hdr w !! k with
  | Some _ =>
      Qr tt {| hdr := delete k (hdr w); disk := disk w; out := out w |}
  | None => Qe (KeyError k) w
  end ->
  post (delitem k) w Qe Qr.
Proof.
  unfold post, delitem. destruct (hdr w !! k); exact (fun H => H).
Qed.

Lemma post_flush w Qe (Qr : unit -> world -> Prop) :
  Qr tt {| hdr := hdr w; disk := hdr w; out := out w |} ->
  post flush w Qe Qr.
Proof. exact (fun H => H). Qed.

Lemma post_bind {A B} (m : M A) (c : A -> M B) w Qe
      (Qr : B -> world -> Prop) :
  post m w Qe (fun a w' => post (c a) w' Qe Qr) ->
  post (bind m c) w Qe Qr.
Proof.
  unfold post, bind. destruct (m w) as [[e | a] w']; exact (fun H => H).
Qed.

(** The postconditions can be weakened. *)
Lemma post_weaken {A} (m : M A) w (Qe Qe' : exn -> world -> Prop)
      (Qr Qr' : A -> world -> Prop) :
  post m w Qe Qr ->
  (forall e w', Qe e w' -> Qe' e w') ->
  (forall a w', Qr a w' -> Qr' a w') ->
  post m w Qe' Qr'.
Proof.
  unfold post. destruct (m w) as [[e | a] w']; auto.
Qed.

(** Sequencing through an intermediate condition. *)
Lemma post_seq {A B} (m : M A) (c : A -> M B) w Qe
      (Qm : A -> world -> Prop) (Qr : B -> world -> Prop) :
  post m w Qe Qm ->
  (forall a w', Qm a w' -> post (c a) w' Qe Qr) ->
  post (bind m c) w Qe Qr.
Proof.
  intros Hm Hc. apply post_bind.
  apply (post_weaken _ _ _ _ _ _ Hm); auto.
Qed.

End Outcomes.

Ltac post_lookup :=
  cbn [hdr disk out set_hdr];
  rewrite ?lookup_delete_ne by discriminate;
  rewrite ?lookup_insert_ne by discriminate;
  match goal with
  | H : ?h !! ?k = _ |- context [?h !! ?k] => rewrite H
  | |- context [match ?h !! ?k with _ => _ end] =>
      destruct (h !! k) eqn:?
  end.

Ltac post_step :=
  cbn [hdr disk out set_hdr];
  match goal with
  | |- post (bind _ _) _ _ _ => apply post_bind
  | |- post (ret _) _ _ _ => apply post_ret
  | |- post (raise _) _ _ _ => apply post_raise
  | |- post (print _) _ _ _ => apply post_print
  | |- post (contains _) _ _ _ => apply post_contains; post_lookup
  | |- post (getitem _) _ _ _ => apply post_getitem; post_lookup
  | |- post (setitem _ ?v) _ _ _ =>
      apply post_setitem;
      first [ match goal with
              | H : assignable v = _ |- _ => rewrite H
              end
            | destruct (assignable v) eqn:? ]
  | |- post (library (Some _)) _ _ _ => apply post_ret
  | |- post (library None) _ _ _ => apply post_raise
  | |- post (library ?x) _ _ _ =>
      first [ match goal with
              | H : x = _ |- _ => rewrite H
              end
            | destruct x eqn:? ]
  | |- post (delitem _) _ _ _ => apply post_delitem; post_lookup
  | |- post flush _ _ _ => apply post_flush
  | |- post (when _ _) _ _ _ => unfold when
  | |- post (if ?b then _ else _) _ _ _ =>
      first [ progress (rewrite ?andb_false_r, ?andb_true_r; cbn [andb negb])
            | destruct b eqn:? ]
  | |- post (match ?x with _ => _ end) _ _ _ => destruct x eqn:?
  | |- post (pyfloat_str _) _ _ _ => unfold pyfloat_str
  | |- post (pyfloat _) _ _ _ => unfold pyfloat
  | |- post (str_split _ _) _ _ _ => unfold str_split
  | |- post (Time_new _) _ _ _ => unfold Time_new
  | |- post _ _ _ _ => progress cbv zeta
  end.

Section TimeOutcomes.
Context `{PF : PyFloat} `{TL : TimeLib}.
Import PyStr Re.
Local Open Scope list_scope.

(** What the adjustment can raise: a value that cannot be read
    ([ValueError], [OverflowError]), an exception of the time library,
    a value the header refuses ([ValueError]). *)
Definition adjust_fails (e : exn) : Prop :=
  e = ValueError \/ e = OverflowError \/ e = LibraryError.

(** The three keywords are written in the order DATE-OBS, MIDPOINT, JD:
    the header after all three, and the header when an exception stopped
    the adjustment on the way. *)
Definition time_keys_written (h h' : header) : Prop :=
  exists a m j,
    h' = <["JD" := VFloat j]>
           (<["MIDPOINT" := VStr m]> (<["DATE-OBS" := VStr a]> h)).

Definition partly_written (h h' : header) : Prop :=
  h' = h
  \/ (exists a, h' = <["DATE-OBS" := VStr a]> h)
  \/ (exists a m,
        h' = <["MIDPOINT" := VStr m]> (<["DATE-OBS" := VStr a]> h)).

(** The adjustment from an extracted timestamp either writes the three
    keywords and returns, or raises with none, one or two of them
    written. *)
Lemma adjust_with_post (o : Options.t) (arg : string) (full : hval) w :
  post (adjust_with o arg full) w
    (fun e w' => adjust_fails e /\ partly_written (hdr w) (hdr w'))
    (fun _ w' => time_keys_written (hdr w) (hdr w')).
Proof.
  unfold adjust_with. repeat post_step; cbn [hdr as_stored];
    unfold adjust_fails, partly_written, time_keys_written; eauto 10.
Qed.

End TimeOutcomes.

Section SetTimes.
Context `{PF : PyFloat} `{TL : TimeLib}.
Import PyStr Re.
Local Open Scope list_scope.

Lemma set_times_local (o : Options.t) (arg : string) :
  header_local ("UT-START" :: time_keys) (set_times o arg).
Proof.
  unfold set_times, extract_full_dateobs, time_keys. repeat local_step.
Qed.

(** The header has a UT-START and a DATE-OBS string of three fields
    separated by slashes: the case in which [extract_full_dateobs] merges
    the two and deletes UT-START. *)
Definition merges (h : header) : bool :=
  match h !! "UT-START", h !! "DATE-OBS" with
  | Some _, Some (VStr s) => bool_decide (length (split "/" s) = 3%nat)
  | _, _ => false
  end.

(** What [set_times] can raise and what it leaves in the header. *)
Definition set_times_fails (e : exn) : Prop :=
  e = ValueError \/ e = OverflowError \/ e = AttributeError
  \/ e = LibraryError.

Lemma set_times_post (o : Options.t) (arg : string) w :
  post (set_times o arg) w
    (fun e w' =>
       set_times_fails e
       /\ (partly_written (hdr w) (hdr w')
           \/ partly_written (delete "UT-START" (hdr w)) (hdr w')))
    (fun _ w' =>
       hdr w' = hdr w
       \/ time_keys_written (hdr w) (hdr w')
       \/ time_keys_written (delete "UT-START" (hdr w)) (hdr w')).
Proof.
  rewrite set_times_eq. unfold extract_full_dateobs.
  repeat post_step; cbn [hdr]; unfold set_times_fails;
    try (split; [tauto | left; left; reflexivity]); auto;
    (eapply post_weaken; [apply adjust_with_post | |]);
    cbn [hdr]; unfold set_times_fails, adjust_fails;
    intros; try tauto.
Qed.

End SetTimes.

Section SetTimesUT.
Context `{PF : PyFloat} `{TL : TimeLib}.
Import PyStr Re.
Local Open Scope list_scope.

(** The fate of UT-START in [set_times], whether it returns or raises:
    it is deleted exactly when the time adjustment is asked for and the
    header is in the case [merges]; in every other case with a UT-START
    the header is left as it was. *)
Definition ut_start_fate (o : Options.t) (h h' : header) : Prop :=
  h' !! "UT-START"
  = (if Options.adjust_time o && merges h then None else h !! "UT-START")
  /\ (Options.adjust_time o && merges h = false ->
      is_Some (h !! "UT-START") -> h' = h).

Lemma partly_written_ut_start (h h' : header) :
  partly_written h h' -> h' !! "UT-START" = h !! "UT-START".
Proof.
  intros [-> | [(a & ->) | (a & m & ->)]];
    rewrite ?lookup_insert_ne by discriminate; reflexivity.
Qed.

Lemma time_keys_written_ut_start (h h' : header) :
  time_keys_written h h' -> h' !! "UT-START" = h !! "UT-START".
Proof.
  intros (a & m & j & ->).
  rewrite ?lookup_insert_ne by discriminate; reflexivity.
Qed.

Lemma set_times_ut_start (o : Options.t) (arg : string) w :
  post (set_times o arg) w
    (fun _ w' => ut_start_fate o (hdr w) (hdr w'))
    (fun _ w' => ut_start_fate o (hdr w) (hdr w')).
Proof.
  rewrite set_times_eq. unfold extract_full_dateobs, ut_start_fate, merges.
  destruct (Options.adjust_time o); cbn [negb andb].
  2: { apply post_ret. auto. }
  repeat post_step; cbn [hdr];
    repeat match goal with
           | H : hdr w !! _ = _ |- _ => rewrite H
           end;
    try (eapply post_weaken; [apply adjust_with_post | |]);
    cbn [hdr]; intros.
  all: try (split; [reflexivity | tauto]).
  all: rewrite ?bool_decide_eq_true_2 by reflexivity.
  all: match goal with
       | H : _ /\ partly_written _ _ |- _ =>
           destruct H as [_ Hh]; apply partly_written_ut_start in Hh
       | H : time_keys_written _ _ |- _ =>
           apply time_keys_written_ut_start in H; rename H into Hh
       end;
    rewrite Hh; cbn [hdr]; rewrite ?lookup_delete_eq;
    (split; [assumption || reflexivity |]);
    intros; try discriminate;
    exfalso; eapply is_Some_None; eassumption.
Qed.

End SetTimesUT.

(* ===================================================================== *)
(** ** The legacy date step and the six plain steps *)
(* ===================================================================== *)

Section PlainSteps.
Context `{PF : PyFloat} `{TL : TimeLib}.
Import PyStr Re.
Local Open Scope list_scope.

Lemma post_run {A} (m : M A) w Qe (Qr : A -> world -> Prop) :
  post m w Qe Qr ->
  match fst (m w) with
  | inl e => Qe e (snd (m w))
  | inr a => Qr a (snd (m w))
  end.
Proof. unfold post. destruct (m w) as [[e | a] w']; exact (fun H => H). Qed.

Lemma post_always {A} (m : M A) w (Q : world -> Prop) :
  post m w (fun _ => Q) (fun _ => Q) -> Q (snd (m w)).
Proof. unfold post. destruct (m w) as [[e | a] w']; exact (fun H => H). Qed.

(** The value [optionally_set_iris_dateobs] writes, when the option is
    given and matches. *)
Definition iris_value (o : Options.t) : option string :=
  match Options.iris_dateobs o with
  | Some opt =>
      match re_match iris_pattern opt with
      | Some m =>
          Some (zfill 2 (str_or_None (group m 3)) +:+ "/"
                +:+ zfill 2 (str_or_None (group m 2)) +:+ "/"
                +:+ zfill 4 (str_or_None (group m 1)))
      | None => None
      end
  | None => None
  end.

Definition iris_hdr (o : Options.t) (h : header) : header :=
  match iris_value o with
  | Some s => <["DATE-OBS" := VStr s]> h
  | None => h
  end.

(** The value of the legacy date step is stored as it is. *)
Lemma iris_value_kept (o : Options.t) (s : string) :
  iris_value o = Some s -> kept s.
Proof.
  unfold iris_value.
  destruct (Options.iris_dateobs o) as [opt |]; [| discriminate].
  destruct (re_match iris_pattern opt) as [caps |] eqn:E; [| discriminate].
  intros [= <-].
  destruct (iris_pattern_sound opt caps E)
    as (y & m & d & Hy & Hy4 & Hm & Hml & Hd & Hdl & ->).
  unfold group. rewrite lookup_insert_eq.
  rewrite lookup_insert_ne by congruence. rewrite lookup_insert_eq.
  do 2 (rewrite lookup_insert_ne by congruence). rewrite lookup_insert_eq.
  cbn [str_or_None].
  destruct (zfill2_digits d Hd Hdl) as (-> & Hpd & _).
  destruct (zfill2_digits m Hm Hml) as (-> & Hpm & _).
  rewrite (zfill4_digits y Hy4).
  apply kept_date; try assumption.
  intros ->. discriminate.
Qed.

(** The legacy date step never raises; when it writes DATE-OBS it also
    writes the file. *)
Lemma iris_step_post (o : Options.t) (arg : string) w :
  post (optionally_set_iris_dateobs o arg) w
    (fun _ _ => False)
    (fun _ w' =>
       hdr w' = iris_hdr o (hdr w)
       /\ disk w' = match iris_value o with
                    | Some _ => iris_hdr o (hdr w)
                    | None => disk w
                    end).
Proof.
  pose proof (iris_value_kept o) as Hk.
  unfold optionally_set_iris_dateobs, iris_hdr, iris_value in *.
  destruct (Options.iris_dateobs o) as [opt |]; [| apply post_ret; auto].
  destruct (re_match iris_pattern opt) as [caps |];
    [| apply post_print; auto].
  destruct (Hk _ eq_refl) as [Ha Hs]. clear Hk.
  repeat post_step; rewrite ?Hs; cbn [hdr disk]; auto.
Qed.

Lemma iris_hdr_idem (o : Options.t) (h : header) :
  iris_hdr o (iris_hdr o h) = iris_hdr o h.
Proof.
  unfold iris_hdr. destruct (iris_value o); [| reflexivity].
  apply insert_insert_eq.
Qed.

Lemma iris_hdr_other (o : Options.t) (h : header) (k : string) :
  k <> "DATE-OBS" -> iris_hdr o h !! k = h !! k.
Proof.
  intros Hk. unfold iris_hdr. destruct (iris_value o); [| reflexivity].
  apply lookup_insert_ne. congruence.
Qed.

(** A step that writes nothing to the file and raises nothing but the
    [ValueError] of a value the header refuses: it raises when [ok] is
    false of the header it starts from, and otherwise maps the value of
    each keyword [k] by [g k]. *)
Definition keywise (ok : header -> bool) (m : M unit)
           (g : string -> option hval -> option hval) : Prop :=
  forall w,
    post m w
      (fun e w' => e = ValueError /\ ok (hdr w) = false /\ disk w' = disk w)
      (fun _ w' =>
         ok (hdr w) = true /\ disk w' = disk w
         /\ forall k, hdr w' !! k = g k (hdr w !! k)).

Definition at_key (key : string) (f : option hval -> option hval)
  : string -> option hval -> option hval :=
  fun k x => if decide (k = key) then f x else x.

Definition object_ok (o : Options.t) : bool :=
  match Options.object o with
  | Some v => assignable (VStr v)
  | None => true
  end.

Definition object_value (o : Options.t) (x : option hval) : option hval :=
  match Options.object o with
  | Some v => Some (as_stored (VStr v))
  | None => x
  end.

Definition filter_ok (o : Options.t) (h : header) : bool :=
  match Options.filter o with
  | Some f => match h !! "FILTER" with
              | Some _ => true
              | None => assignable (VStr f)
              end
  | None => true
  end.

Definition filter_value (o : Options.t) (x : option hval) : option hval :=
  match Options.filter o with
  | Some f => match x with
              | Some _ => x
              | None => Some (as_stored (VStr f))
              end
  | None => x
  end.

Definition airmass_ok (o : Options.t) : bool :=
  match Options.airmass o with
  | Some v => assignable (VStr v)
  | None => true
  end.

Definition airmass_value (o : Options.t) (x : option hval) : option hval :=
  match Options.airmass o with
  | Some v => Some (as_stored (VStr v))
  | None => x
  end.

Definition calstat_value (o : Options.t) (x : option hval) : option hval :=
  match Options.calstat o with
  | Some c => if bool_decide (c ∈ calstat_values) then Some (VStr c) else x
  | None => x
  end.

Definition ra_value (o : Options.t) (x : option hval) : option hval :=
  match Options.ra o with
  | Some r => match get_hd_m_s_str r prefix_none with
              | Some v => Some (VStr v)
              | None => x
              end
  | None => x
  end.

Definition dec_value (o : Options.t) (x : option hval) : option hval :=
  match Options.dec o with
  | Some r => match get_hd_m_s_str r prefix_sign with
              | Some v => Some (VStr v)
              | None => x
              end
  | None => x
  end.

(** The value [get_hd_m_s_str] makes is stored as it is. *)
Lemma get_hd_m_s_str_kept (prefix : re) (input v : string) :
  prefix = prefix_none \/ prefix = prefix_sign ->
  get_hd_m_s_str input prefix = Some v -> kept v.
Proof.
  intros Hp H. unfold get_hd_m_s_str in H.
  destruct (re_match (hd_m_s_pattern prefix) input) as [caps |] eqn:E;
    [| discriminate].
  assert (Hin : exists sg h m s frac,
             sign sg /\ all_digit h /\ all_digit m /\ all_digit s
             /\ s <> [] /\ fraction frac
             /\ group caps 1 = Some (str (sg ++ h))
             /\ group caps 3 = Some (str m)
             /\ group caps 4 = Some (str (s ++ frac))).
  { destruct Hp as [-> | ->].
    - apply (hd_m_s_pattern_input _ _ _ _ reads_prefix_none) in E
        as (ws1 & sg & h & m & s0 & frac & ws2 & H1 & H2 & Hsg & H3 & H4
            & H5 & H6 & H7 & H8 & H9 & _ & G1 & G3 & G4).
      exists sg, h, m, s0, frac.
      repeat split; try assumption; unfold sign; tauto.
    - apply (hd_m_s_pattern_input _ _ _ _ reads_prefix_sign) in E
        as (ws1 & sg & h & m & s0 & frac & ws2 & H1 & H2 & Hsg & H3 & H4
            & H5 & H6 & H7 & H8 & H9 & _ & G1 & G3 & G4).
      exists sg, h, m, s0, frac.
      repeat split; try assumption; unfold sign; tauto. }
  destruct Hin as (sg & h & m & s0 & frac & Hsg & Hh & Hm & Hs & Hsne
                   & Hfrac & G1 & G3 & G4).
  rewrite G1, G3, G4 in H. cbn [str_or_None] in H. injection H as <-.
  apply kept_coordinates; assumption.
Qed.

Ltac keywise_finish :=
  let k := fresh "k" in
  intros k; unfold at_key;
  match goal with
  | |- context [decide (k = ?key)] => destruct (decide (k = key))
  end; subst;
  repeat match goal with
         | H : hdr _ !! _ = _ |- _ => rewrite H
         end;
  rewrite ?lookup_insert_eq; rewrite ?lookup_insert_ne by congruence;
  reflexivity.

Ltac keywise_steps :=
  repeat post_step; cbn [hdr disk];
  repeat match goal with
         | |- _ /\ _ => split
         end;
  try reflexivity; try assumption; keywise_finish.

Lemma set_object_keywise (o : Options.t) (arg : string) :
  keywise (fun _ => object_ok o) (set_object o arg)
    (at_key "OBJECT" (object_value o)).
Proof.
  intros w. unfold set_object, object_value, object_ok. keywise_steps.
Qed.

Lemma set_filter_keywise (o : Options.t) (arg : string) :
  keywise (filter_ok o) (set_filter o arg)
    (at_key "FILTER" (filter_value o)).
Proof.
  intros w. unfold set_filter, filter_value, filter_ok. keywise_steps.
Qed.

Lemma set_airmass_keywise (o : Options.t) (arg : string) :
  keywise (fun _ => airmass_ok o) (set_airmass o arg)
    (at_key "AIRMASS" (airmass_value o)).
Proof.
  intros w. unfold set_airmass, airmass_value, airmass_ok. keywise_steps.
Qed.

Lemma set_calstat_keywise (o : Options.t) (arg : string) :
  keywise (fun _ => true) (set_calstat o arg)
    (at_key "CALSTAT" (calstat_value o)).
Proof.
  intros w. unfold set_calstat, calstat_value.
  destruct (Options.calstat o) as [c |]; [| keywise_steps].
  destruct (bool_decide (c ∈ calstat_values)) eqn:E; cbn [negb];
    [| keywise_steps].
  apply bool_decide_eq_true in E.
  destruct (calstat_values_stored c E) as [Ha Hs].
  repeat post_step; rewrite ?Hs; cbn [hdr disk];
    repeat split; keywise_finish.
Qed.

Lemma set_ra_keywise (o : Options.t) (arg : string) :
  keywise (fun _ => true) (set_ra o arg) (at_key "RA" (ra_value o)).
Proof.
  intros w. unfold set_ra, ra_value.
  destruct (Options.ra o) as [r |]; [| keywise_steps].
  destruct (get_hd_m_s_str r prefix_none) as [v |] eqn:E; [| keywise_steps].
  destruct (get_hd_m_s_str_kept _ _ _ (or_introl eq_refl) E) as [Ha Hs].
  repeat post_step; rewrite ?Hs; cbn [hdr disk];
    repeat split; keywise_finish.
Qed.

Lemma set_dec_keywise (o : Options.t) (arg : string) :
  keywise (fun _ => true) (set_dec o arg) (at_key "DEC" (dec_value o)).
Proof.
  intros w. unfold set_dec, dec_value.
  destruct (Options.dec o) as [r |]; [| keywise_steps].
  destruct (get_hd_m_s_str r prefix_sign) as [v |] eqn:E; [| keywise_steps].
  destruct (get_hd_m_s_str_kept _ _ _ (or_intror eq_refl) E) as [Ha Hs].
  repeat post_step; rewrite ?Hs; cbn [hdr disk];
    repeat split; keywise_finish.
Qed.

Lemma keywise_nil : keywise (fun _ => true) (run_steps []) (fun _ x => x).
Proof. intros w. apply post_ret. auto. Qed.

(** Two steps in a row, when the first one does not change what decides
    whether the second one raises. *)
Lemma keywise_cons (ok1 ok2 : header -> bool) (m : M unit)
      (rest : list (M unit))
      (g G : string -> option hval -> option hval) :
  keywise ok1 m g -> keywise ok2 (run_steps rest) G ->
  (forall h h', (forall k, h' !! k = g k (h !! k)) -> ok2 h' = ok2 h) ->
  keywise (fun h => ok1 h && ok2 h) (run_steps (m :: rest))
    (fun k x => G k (g k x)).
Proof.
  intros Hm Hrest Hinv w. cbn [run_steps].
  eapply post_seq.
  - eapply post_weaken; [apply Hm | | intros a w' H; exact H].
    cbv beta. intros e w' (-> & Hok & Hd). rewrite Hok. auto.
  - intros [] w1 (Hok1 & Hd1 & Hk1). cbv beta.
    eapply post_weaken; [apply Hrest | |]; cbv beta.
    + intros e w2 (-> & Hok2 & Hd2).
      rewrite (Hinv _ _ Hk1) in Hok2. rewrite Hok1, Hok2.
      split; [reflexivity |]. split; [reflexivity | congruence].
    + intros [] w2 (Hok2 & Hd2 & Hk2).
      rewrite (Hinv _ _ Hk1) in Hok2. rewrite Hok1, Hok2.
      split; [reflexivity |]. split; [congruence |].
      intros k. rewrite Hk2, Hk1. reflexivity.
Qed.

Lemma keywise_ok_ext (ok ok' : header -> bool) (m : M unit)
      (g : string -> option hval -> option hval) :
  (forall h, ok h = ok' h) -> keywise ok m g -> keywise ok' m g.
Proof.
  intros He Hm w. eapply post_weaken; [apply Hm | |]; cbv beta;
    intros; rewrite <- He; assumption.
Qed.

(** Steps 3 to 8 of [main]. *)
Definition plain_steps (o : Options.t) (arg : string) : list (M unit) :=
  [ set_object o arg; set_filter o arg; set_airmass o arg;
    set_calstat o arg; set_ra o arg; set_dec o arg ].

(** The header accepts what they write: the object and the airmass, and
    the filter when the header has none. *)
Definition plain_ok (o : Options.t) (h : header) : bool :=
  object_ok o && filter_ok o h && airmass_ok o.

(** What they make of the value [x] of keyword [k]. *)
Definition plain_value (o : Options.t) (k : string) (x : option hval)
  : option hval :=
  at_key "DEC" (dec_value o) k
    (at_key "RA" (ra_value o) k
       (at_key "CALSTAT" (calstat_value o) k
          (at_key "AIRMASS" (airmass_value o) k
             (at_key "FILTER" (filter_value o) k
                (at_key "OBJECT" (object_value o) k x))))).

Lemma filter_ok_ext (o : Options.t) (h h' : header) :
  h' !! "FILTER" = h !! "FILTER" -> filter_ok o h' = filter_ok o h.
Proof. intros H. unfold filter_ok. rewrite H. reflexivity. Qed.

Lemma plain_steps_keywise (o : Options.t) (arg : string) :
  keywise (plain_ok o) (run_steps (plain_steps o arg)) (plain_value o).
Proof.
  unfold plain_steps, plain_value.
  pose proof (keywise_cons _ _ _ _ _ _ (set_ra_keywise o arg)
    (keywise_cons _ _ _ _ _ _ (set_dec_keywise o arg) keywise_nil
       (fun _ _ _ => eq_refl)) (fun _ _ _ => eq_refl)) as H5.
  pose proof (keywise_cons _ _ _ _ _ _ (set_airmass_keywise o arg)
    (keywise_cons _ _ _ _ _ _ (set_calstat_keywise o arg) H5
       (fun _ _ _ => eq_refl)) (fun _ _ _ => eq_refl)) as H3.
  pose proof (keywise_cons _ _ _ _ _ _ (set_filter_keywise o arg) H3
                (fun _ _ _ => eq_refl)) as H2.
  pose proof (keywise_cons _ _ _ _ _ _ (set_object_keywise o arg) H2) as H1.
  cbv beta in H1.
  eapply keywise_ok_ext; [| apply H1].
  - intros h. unfold plain_ok. rewrite !andb_true_r, andb_assoc.
    reflexivity.
  - intros h h' Hk. cbv beta. f_equal. apply filter_ok_ext.
    rewrite Hk. unfold at_key. rewrite decide_False by discriminate.
    reflexivity.
Qed.

Lemma object_value_idem (o : Options.t) (x : option hval) :
  object_value o (object_value o x) = object_value o x.
Proof. unfold object_value. destruct (Options.object o); reflexivity. Qed.

Lemma filter_value_idem (o : Options.t) (x : option hval) :
  filter_value o (filter_value o x) = filter_value o x.
Proof.
  unfold filter_value. destruct (Options.filter o); [destruct x |];
    reflexivity.
Qed.

Lemma airmass_value_idem (o : Options.t) (x : option hval) :
  airmass_value o (airmass_value o x) = airmass_value o x.
Proof. unfold airmass_value. destruct (Options.airmass o); reflexivity. Qed.

Lemma calstat_value_idem (o : Options.t) (x : option hval) :
  calstat_value o (calstat_value o x) = calstat_value o x.
Proof.
  unfold calstat_value. destruct (Options.calstat o) as [c |];
    [destruct (bool_decide (c ∈ calstat_values)) |]; reflexivity.
Qed.

Lemma ra_value_idem (o : Options.t) (x : option hval) :
  ra_value o (ra_value o x) = ra_value o x.
Proof.
  unfold ra_value. destruct (Options.ra o) as [r |];
    [destruct (get_hd_m_s_str r prefix_none) |]; reflexivity.
Qed.

Lemma dec_value_idem (o : Options.t) (x : option hval) :
  dec_value o (dec_value o x) = dec_value o x.
Proof.
  unfold dec_value. destruct (Options.dec o) as [r |];
    [destruct (get_hd_m_s_str r prefix_sign) |]; reflexivity.
Qed.

Lemma plain_value_idem (o : Options.t) (k : string) (x : option hval) :
  plain_value o k (plain_value o k x) = plain_value o k x.
Proof.
  unfold plain_value, at_key.
  repeat case_decide; subst; try discriminate;
    auto using object_value_idem, filter_value_idem, airmass_value_idem,
      calstat_value_idem, ra_value_idem, dec_value_idem.
Qed.

Lemma plain_value_other (o : Options.t) (k : string) (x : option hval) :
  k ∉ ["OBJECT"; "FILTER"; "AIRMASS"; "CALSTAT"; "RA"; "DEC"] ->
  plain_value o k x = x.
Proof.
  intros Hk. unfold plain_value, at_key.
  repeat case_decide; subst; try reflexivity; exfalso; apply Hk;
    repeat constructor.
Qed.

(** Once the six steps have run, the header accepts them again: the
    filter is there. *)
Lemma plain_ok_again (o : Options.t) (h h' : header) :
  plain_ok o h = true ->
  h' !! "FILTER" = plain_value o "FILTER" (h !! "FILTER") ->
  plain_ok o h' = true.
Proof.
  unfold plain_ok. intros H Hf.
  apply andb_true_iff in H as [H Ha]. apply andb_true_iff in H as [Ho Hfi].
  rewrite Ho, Ha, andb_true_r. cbn [andb].
  unfold filter_ok in *. rewrite Hf.
  unfold plain_value, at_key.
  repeat (rewrite decide_False by discriminate).
  rewrite decide_True by reflexivity.
  unfold filter_value.
  destruct (Options.filter o) as [f |]; [| reflexivity].
  destruct (h !! "FILTER"); reflexivity.
Qed.

End PlainSteps.

(* ===================================================================== *)
(** ** One run and two runs of the script on a file *)
(* ===================================================================== *)

Section TwoRuns.
Context `{PF : PyFloat} `{TL : TimeLib}.
Import PyStr Re.
Local Open Scope list_scope.

Lemma edit_steps_eq (o : Options.t) (arg : string) :
  edit_steps o arg
  = optionally_set_iris_dateobs o arg :: set_times o arg
      :: plain_steps o arg.
Proof. reflexivity. Qed.

Lemma set_times_fails_not_KeyError (e : exn) (k : string) :
  set_times_fails e -> e <> KeyError k.
Proof. intros [-> | [-> | [-> | ->]]]; discriminate. Qed.

(** The file after one run: when [set_times] raises, or when one of the
    six plain steps does, what the legacy date step wrote; otherwise the
    header after [set_times], through the six plain steps. *)
Lemma file_after_cases (o : Options.t) (arg : string) (d : header) :
  match fst (set_times o arg (opened (iris_hdr o d))) with
  | inl _ => file_after o arg d = iris_hdr o d
  | inr _ =>
      if plain_ok o (hdr (snd (set_times o arg (opened (iris_hdr o d)))))
      then forall k,
             file_after o arg d !! k
             = plain_value o k
                 (hdr (snd (set_times o arg (opened (iris_hdr o d)))) !! k)
      else file_after o arg d = iris_hdr o d
  end.
Proof.
  unfold file_after, process_file, run_file. rewrite edit_steps_eq.
  cbn [run_steps]. unfold try_except_KeyError, bind.
  pose proof (iris_step_post o arg (opened d)) as Hi. unfold post in Hi.
  destruct (optionally_set_iris_dateobs o arg (opened d))
    as [[e | []] wi]; [contradiction |].
  destruct Hi as [Hh Hd]. cbn [hdr disk opened] in Hh, Hd.
  assert (Hdisk : disk wi = iris_hdr o d).
  { rewrite Hd. unfold iris_hdr. destruct (iris_value o); reflexivity. }
  destruct (set_times_local o arg (opened (iris_hdr o d)))
    as (_ & _ & Hdet).
  destruct (Hdet wi Hh) as [Hfst Hhdr]. clear Hdet.
  destruct (set_times_local o arg wi) as (Hdk & _ & _).
  pose proof (set_times_post o arg wi) as Hp. unfold post in Hp.
  destruct (set_times o arg wi) as [[e | []] wt]; cbn [fst snd] in *.
  - rewrite <- Hfst. destruct Hp as [Hf _].
    destruct e; cbn [snd disk];
      try (exfalso; eapply set_times_fails_not_KeyError; eauto; fail);
      congruence.
  - rewrite <- Hfst, <- Hhdr.
    pose proof (plain_steps_keywise o arg wt) as Ht. unfold post in Ht.
    destruct (run_steps (plain_steps o arg) wt) as [[e | []] wT].
    + destruct Ht as (-> & -> & Ht). cbn [snd]. congruence.
    + destruct Ht as (-> & _ & Ht). intros k.
      cbn [snd disk flush]. rewrite Ht. reflexivity.
Qed.

(** A run that stopped on an exception left the file as the legacy date
    step wrote it; the next run is the same run again. *)
Lemma stopped_run_repeats (o : Options.t) (arg : string) (d : header) :
  file_after o arg d = iris_hdr o d ->
  file_after o arg (file_after o arg d) = file_after o arg d.
Proof.
  intros Hs. rewrite Hs.
  pose proof (file_after_cases o arg d) as H1.
  pose proof (file_after_cases o arg (iris_hdr o d)) as H2.
  rewrite iris_hdr_idem in H2.
  destruct (fst (set_times o arg (opened (iris_hdr o d))));
    [exact H2 |].
  destruct (plain_ok o
              (hdr (snd (set_times o arg (opened (iris_hdr o d))))));
    [| exact H2].
  apply map_eq. intros k. rewrite H2, <- H1, Hs. reflexivity.
Qed.

Lemma merges_ext (h1 h2 : header) :
  h1 !! "UT-START" = h2 !! "UT-START" ->
  h1 !! "DATE-OBS" = h2 !! "DATE-OBS" ->
  merges h1 = merges h2.
Proof. intros H1 H2. unfold merges. rewrite H1, H2. reflexivity. Qed.

(** Two runs in a row: the second one changes no keyword outside
    [time_keys]. *)
Lemma two_runs_agree (o : Options.t) (arg : string) (d : header)
      (k : string) :
  k ∉ time_keys ->
  file_after o arg (file_after o arg d) !! k = file_after o arg d !! k.
Proof.
  intros Hk.
  assert (Hdo : k <> "DATE-OBS").
  { intros ->. apply Hk. repeat constructor. }
  pose proof (file_after_cases o arg d) as H1.
  pose proof (file_after_cases o arg (file_after o arg d)) as H2.
  pose proof (post_always _ _ _
                (set_times_ut_start o arg (opened (iris_hdr o d)))) as F1.
  pose proof (post_always _ _ _
                (set_times_ut_start o arg
                   (opened (iris_hdr o (file_after o arg d))))) as F2.
  destruct (set_times_local o arg
              (opened (iris_hdr o (file_after o arg d))))
    as (_ & Hframe & _).
  cbn [hdr opened] in F1, F2, Hframe.
  set (d1 := file_after o arg d) in *.
  set (x1 := set_times o arg (opened (iris_hdr o d))) in *.
  set (x2 := set_times o arg (opened (iris_hdr o d1))) in *.
  assert (Hstop : file_after o arg d = iris_hdr o d ->
                   file_after o arg d1 !! k = d1 !! k).
  { intros Hs. unfold d1. rewrite (stopped_run_repeats o arg d Hs).
    reflexivity. }
  destruct (fst x1) as [e1 | []] eqn:E1; [exact (Hstop H1) |].
  destruct (plain_ok o (hdr (snd x1))) eqn:P1; [| exact (Hstop H1)].
  clear Hstop.
  destruct (fst x2) as [e2 | []] eqn:E2.
  - rewrite H2. apply iris_hdr_other. exact Hdo.
  - assert (P2 : plain_ok o (hdr (snd x2)) = true).
    { apply (plain_ok_again o (hdr (snd x1))); [exact P1 |].
      rewrite Hframe
        by (unfold time_keys; rewrite !not_elem_of_cons; repeat split;
            try discriminate; apply not_elem_of_nil).
      rewrite iris_hdr_other by discriminate. apply H1. }
    rewrite P2 in H2.
    rewrite H2. destruct (decide (k = "UT-START")) as [-> | Hut].
    + rewrite !plain_value_other
        by (rewrite !not_elem_of_cons; repeat split;
            try discriminate; apply not_elem_of_nil).
      rewrite H1.
      rewrite !plain_value_other
        by (rewrite !not_elem_of_cons; repeat split;
            try discriminate; apply not_elem_of_nil).
      destruct F1 as [F1a F1b], F2 as [F2a F2b].
      assert (Hd1 : iris_hdr o d1 !! "UT-START"
                    = hdr (snd x1) !! "UT-START").
      { rewrite iris_hdr_other by discriminate. rewrite H1.
        apply plain_value_other.
        rewrite !not_elem_of_cons; repeat split;
          try discriminate; apply not_elem_of_nil. }
      rewrite F2a, Hd1.
      destruct (hdr (snd x1) !! "UT-START") as [u |] eqn:Eu;
        [| destruct (Options.adjust_time o && merges (iris_hdr o d1));
           reflexivity].
      destruct (Options.adjust_time o && merges (iris_hdr o d)) eqn:Em;
        [discriminate |].
      assert (Hsame : hdr (snd x1) = iris_hdr o d).
      { apply F1b; [reflexivity |]. rewrite <- F1a. eauto. }
      assert (Hm : merges (iris_hdr o d1) = merges (iris_hdr o d)).
      { apply merges_ext.
        - rewrite Hd1. exact F1a.
        - unfold iris_hdr.
          destruct (iris_value o) as [s |] eqn:Ei.
          + rewrite !lookup_insert_eq. reflexivity.
          + rewrite H1, Hsame.
            rewrite plain_value_other
              by (rewrite !not_elem_of_cons; repeat split;
                  try discriminate; apply not_elem_of_nil).
            unfold iris_hdr. rewrite Ei. reflexivity. }
      rewrite Hm, Em. reflexivity.
    + rewrite Hframe.
      2: { unfold time_keys in *. rewrite not_elem_of_cons. auto. }
      rewrite iris_hdr_other by exact Hdo.
      rewrite H1. apply plain_value_idem.
Qed.

(** X1. A second run of the script with the same options leaves every
    keyword other than DATE-OBS, MIDPOINT and JD as the first run left it,
    whatever the header and the options, also when a run stops on an
    exception of the time adjustment. *)
Theorem second_run_agrees (o : Options.t) (arg : string) (d : header)
        (k : string) :
  k ∉ time_keys ->
  file_after o arg (file_after o arg d) !! k = file_after o arg d !! k.
Proof. apply two_runs_agree. Qed.

(** C3 (as the code behaves). For every header and all options, the
    header the file holds after a second pass with the same options is
    the header it held after the first pass, except for DATE-OBS,
    MIDPOINT and JD: the two headers have the same keywords with the same
    values once these three are set aside. *)
Theorem second_pass_agrees_except_times
        (o : Options.t) (arg : string) (d : header) :
  let apart (h : header) : header :=
    delete "JD" (delete "MIDPOINT" (delete "DATE-OBS" h)) in
  apart (file_after o arg (file_after o arg d))
  = apart (file_after o arg d).
Proof.
  intros apart. unfold apart. apply map_eq. intros k.
  destruct (decide (k = "JD")) as [-> | Hj];
    [rewrite !lookup_delete_eq; reflexivity |].
  rewrite !(lookup_delete_ne _ "JD") by congruence.
  destruct (decide (k = "MIDPOINT")) as [-> | Hm];
    [rewrite !lookup_delete_eq; reflexivity |].
  rewrite !(lookup_delete_ne _ "MIDPOINT") by congruence.
  destruct (decide (k = "DATE-OBS")) as [-> | Hd];
    [rewrite !lookup_delete_eq; reflexivity |].
  rewrite !(lookup_delete_ne _ "DATE-OBS") by congruence.
  apply two_runs_agree. unfold time_keys.
  rewrite !not_elem_of_cons. repeat split; try assumption.
  apply not_elem_of_nil.
Qed.

End TwoRuns.

(* ===================================================================== *)
(** ** Guarantees of the edit steps *)
(* ===================================================================== *)

Section Guarantees.
Context `{PF : PyFloat} `{TL : TimeLib}.
Import PyStr Re.
Local Open Scope list_scope.

Lemma edit_steps_post (o : Options.t) (arg : string) w :
  post (run_steps (edit_steps o arg)) w
    (fun e _ => set_times_fails e) (fun _ _ => True).
Proof.
  rewrite edit_steps_eq. cbn [run_steps].
  eapply post_seq with (Qm := fun _ _ => True).
  { eapply post_weaken; [apply iris_step_post | |]; cbv beta;
      [intros e w' [] | auto]. }
  intros _ w1 _.
  eapply post_seq with (Qm := fun _ _ => True).
  { eapply post_weaken; [apply set_times_post | |]; cbv beta;
      [intros e w' [H _]; exact H | auto]. }
  intros _ w2 _.
  eapply post_weaken; [apply plain_steps_keywise | |]; cbv beta;
    [intros e w' [-> _]; left; reflexivity | auto].
Qed.

(** X2. No edit step of [main] raises [KeyError], whatever the header and
    the options: every lookup and the deletion are guarded by a test of
    presence.  The handler of [main] is never entered and its error line
    is never printed. *)
Theorem edit_steps_never_raise_KeyError
        (o : Options.t) (arg : string) (w : world) (k : string) :
  fst (run_steps (edit_steps o arg) w) <> inl (KeyError k)
  /\ try_except_KeyError (run_steps (edit_steps o arg)) w
     = run_steps (edit_steps o arg) w.
Proof.
  pose proof (post_run _ _ _ _ (edit_steps_post o arg w)) as H.
  unfold try_except_KeyError.
  destruct (run_steps (edit_steps o arg) w) as [[e | []] w'];
    cbn [fst snd] in *.
  - split.
    + intros [= ->]. eapply set_times_fails_not_KeyError; eauto.
    + destruct e; try reflexivity.
      exfalso. eapply set_times_fails_not_KeyError; eauto.
  - split; [discriminate | reflexivity].
Qed.

(** X3. The time adjustment writes DATE-OBS, MIDPOINT and JD in this
    order and stops at the first exception.  When it returns, it has
    written all three (two strings and a float) or none.  When it raises,
    what it had written stays in the header in memory: nothing, DATE-OBS
    alone, or DATE-OBS and MIDPOINT; JD is never written without the two
    others, nor MIDPOINT without DATE-OBS. *)
Theorem set_times_writes_in_order
        (o : Options.t) (arg : string) (w : world) :
  let r := set_times o arg w in
  let same k := hdr (snd r) !! k = hdr w !! k in
  (same "DATE-OBS" /\ same "MIDPOINT" /\ same "JD")
  \/ (exists a,
        fst r <> inr tt
        /\ hdr (snd r) !! "DATE-OBS" = Some (VStr a)
        /\ same "MIDPOINT" /\ same "JD")
  \/ (exists a m,
        fst r <> inr tt
        /\ hdr (snd r) !! "DATE-OBS" = Some (VStr a)
        /\ hdr (snd r) !! "MIDPOINT" = Some (VStr m)
        /\ same "JD")
  \/ (exists a m j,
        fst r = inr tt
        /\ hdr (snd r) !! "DATE-OBS" = Some (VStr a)
        /\ hdr (snd r) !! "MIDPOINT" = Some (VStr m)
        /\ hdr (snd r) !! "JD" = Some (VFloat j)).
Proof.
  intros r same. unfold same, r. clear r same.
  pose proof (post_run _ _ _ _ (set_times_post o arg w)) as H.
  destruct (set_times o arg w) as [[e | []] w']; cbn [fst snd] in *.
  - destruct H as [_ [H | H]];
      destruct H as [-> | [(a & ->) | (a & m & ->)]];
      [left | right; left; exists a | right; right; left; exists a, m
      |left | right; left; exists a | right; right; left; exists a, m];
      repeat split; try discriminate;
      rewrite ?lookup_insert_eq;
      rewrite ?(lookup_insert_ne _ "MIDPOINT" "DATE-OBS") by discriminate;
      rewrite ?(lookup_insert_ne _ "MIDPOINT" "JD") by discriminate;
      rewrite ?(lookup_insert_ne _ "DATE-OBS" "MIDPOINT") by discriminate;
      rewrite ?(lookup_insert_ne _ "DATE-OBS" "JD") by discriminate;
      rewrite ?lookup_insert_eq;
      rewrite ?lookup_delete_ne by discriminate; reflexivity.
  - destruct H as [-> | [(a & m & j & ->) | (a & m & j & ->)]];
      [left; auto | do 3 right | do 3 right];
      exists a, m, j; (split; [reflexivity |]);
      rewrite ?lookup_insert_eq;
      rewrite ?(lookup_insert_ne _ "JD" "MIDPOINT") by discriminate;
      rewrite ?(lookup_insert_ne _ "JD" "DATE-OBS") by discriminate;
      rewrite ?lookup_insert_eq;
      rewrite ?(lookup_insert_ne _ "MIDPOINT" "DATE-OBS") by discriminate;
      rewrite ?lookup_insert_eq; auto.
Qed.

(** X4. The time adjustment changes no keyword other than UT-START,
    DATE-OBS, MIDPOINT and JD, and it writes nothing to the file, whether
    it returns or raises. *)
Theorem set_times_frame (o : Options.t) (arg : string) (w : world)
        (k : string) :
  k ∉ ["UT-START"; "DATE-OBS"; "MIDPOINT"; "JD"] ->
  hdr (snd (set_times o arg w)) !! k = hdr w !! k
  /\ disk (snd (set_times o arg w)) = disk w.
Proof.
  intros Hk. destruct (set_times_local o arg w) as (Hd & Hf & _).
  split; [apply Hf; exact Hk | exact Hd].
Qed.

(** X5. UT-START is deleted by the time adjustment exactly when the
    adjustment is asked for and the header holds UT-START together with a
    DATE-OBS string of three fields separated by slashes; the deletion
    comes before the timestamp and the options are read, so that it is
    made in memory also when the adjustment then raises. *)
Theorem ut_start_deleted_when_merged
        (o : Options.t) (arg : string) (w : world) :
  hdr (snd (set_times o arg w)) !! "UT-START"
  = if Options.adjust_time o && merges (hdr w)
    then None else hdr w !! "UT-START".
Proof.
  exact (proj1 (post_always _ _ _ (set_times_ut_start o arg w))).
Qed.


(** The options [o] with other values for the three options of the time
    adjustment. *)
Definition with_time_options (o : Options.t) (tz e : string) (m : bool)
  : Options.t :=
  {| Options.airmass := Options.airmass o;
     Options.calstat := Options.calstat o;
     Options.iris_dateobs := Options.iris_dateobs o;
     Options.dec := Options.dec o;
     Options.exp_time := e;
     Options.filter := Options.filter o;
     Options.use_midpoint_for_dateobs := m;
     Options.adjust_time := Options.adjust_time o;
     Options.object := Options.object o;
     Options.ra := Options.ra o;
     Options.tz_offset := tz;
     Options.verbose := Options.verbose o |}.

(** X7. Without [--adjust-time] the options [--tzoffset], [--exptime] and
    [--use-midpoint-for-dateobs] have no effect at all: the run is the
    same, header, file and printed lines, whatever their values (which are
    not even read as numbers). *)
Theorem time_options_need_adjust_time
        (o : Options.t) (arg tz e : string) (m : bool) (w : world) :
  Options.adjust_time o = false ->
  process_file (with_time_options o tz e m) arg w = process_file o arg w.
Proof.
  intros Ha. destruct o. cbn in Ha. subst. reflexivity.
Qed.

(** X8. An exception of the time adjustment (a timestamp, an option or an
    EXPTIME that cannot be read; a DATE-OBS that is not a string beside a
    UT-START; an exception of the time library; a value the header
    refuses) is not caught by the handler of [main]: it leaves
    [process_file] in the world in which it was raised, the six later
    steps are not run and the final [fits.flush()] is skipped, so that
    the file holds what it held after the legacy date step. *)
Theorem set_times_error_escapes
        (o : Options.t) (arg : string) (w wi wt : world) (e : exn) :
  optionally_set_iris_dateobs o arg w = (inr tt, wi) ->
  set_times o arg wi = (inl e, wt) ->
  process_file o arg w = (inl e, wt)
  /\ disk wt = disk wi.
Proof.
  intros Hi Ht.
  pose proof (post_run _ _ _ _ (set_times_post o arg wi)) as Hp.
  destruct (set_times_local o arg wi) as (Hd & _ & _).
  rewrite Ht in Hp, Hd. cbn [fst snd] in Hp, Hd. destruct Hp as [Hf Hh].
  split; [| assumption].
  unfold process_file, run_file. rewrite edit_steps_eq. cbn [run_steps].
  unfold try_except_KeyError, bind. rewrite Hi, Ht.
  destruct e; try reflexivity.
  exfalso. eapply set_times_fails_not_KeyError; eauto.
Qed.

End Guarantees.


(* ===================================================================== *)
(** ** The legacy date through the time adjustment *)
(* ===================================================================== *)

Section LegacyDateThrough.
Context `{PF : PyFloat} `{TL : TimeLib}.
Import PyStr Re.
Local Open Scope list_scope.

Lemma digits_no_slash (l : list ascii) : all_digit l -> "/"%char ∉ l.
Proof.
  intros Hl Hin. unfold all_digit in Hl. rewrite Forall_forall in Hl.
  specialize (Hl _ Hin). discriminate.
Qed.

(** X12. The legacy date and UT-START make the timestamp: when the option
    of the legacy date is yyyy-m-d and the header has a UT-START, the date
    written by [optionally_set_iris_dateobs] (dd/mm/yyyy) is split again by
    [extract_full_dateobs], which returns yyyy-mm-ddT followed by the
    value of UT-START, month and day padded to two digits, and deletes
    UT-START in memory (the file, flushed before, still has it). *)
Theorem iris_then_extract
        (o : Options.t) (arg : string) (w : world) (u : hval)
        (ws1 y m d ws2 : list ascii) :
  all_space ws1 -> all_space ws2 ->
  all_digit y -> length y = 4%nat ->
  all_digit m -> (length m = 1 \/ length m = 2)%nat ->
  all_digit d -> (length d = 1 \/ length d = 2)%nat ->
  Options.iris_dateobs o
  = Some (str (ws1 ++ y ++ ["-"%char] ++ m ++ ["-"%char] ++ d ++ ws2)) ->
  hdr w !! "UT-START" = Some u ->
  let v := str (pad2 d) +:+ "/" +:+ str (pad2 m) +:+ "/" +:+ str y in
  (optionally_set_iris_dateobs o arg ;; extract_full_dateobs arg) w
  = (inr (Some (VStr (str y +:+ "-" +:+ str (pad2 m) +:+ "-"
                      +:+ str (pad2 d) +:+ "T" +:+ py_str u))),
     {| hdr := delete "UT-START" (<["DATE-OBS" := VStr v]> (hdr w));
        disk := <["DATE-OBS" := VStr v]> (hdr w);
        out := out w ++
               (if Options.verbose o
                then [arg +:+ ": " +:+ py_str_opt (hdr w !! "DATE-OBS")
                          +:+ " [initial]";
                      arg +:+ ": " +:+ v +:+ " [adjusted]"]
                else []) |}).
Proof.
  intros Hs1 Hs2 Hy Hy4 Hm Hml Hd Hdl Ho Hu v.
  unfold bind at 1.
  rewrite (iris_step_matched o arg _ w y m d Ho
             (iris_pattern_matches ws1 y m d ws2 Hs1 Hs2 Hy Hy4 Hm Hml Hd Hdl)
             Hy Hy4 Hm Hml Hd Hdl).
  fold v.
  destruct (zfill2_digits m Hm Hml) as (_ & Hpm & _).
  destruct (zfill2_digits d Hd Hdl) as (_ & Hpd & _).
  assert (Hv : v = str (pad2 d ++ ["/"%char] ++ pad2 m ++ ["/"%char] ++ y)).
  { unfold v. rewrite !str_app. reflexivity. }
  assert (Hsplit : split "/" v = [str (pad2 d); str (pad2 m); str y]).
  { rewrite Hv. apply split_date; apply digits_no_slash; assumption. }
  unfold extract_full_dateobs.
  unfold bind at 1.
  rewrite (contains_true "UT-START" u)
    by (cbn [hdr]; rewrite lookup_insert_ne by discriminate; exact Hu).
  unfold bind at 1.
  rewrite (contains_true "DATE-OBS" (VStr v))
    by (cbn [hdr]; apply lookup_insert_eq).
  cbn [andb]. unfold bind, getitem. cbn [hdr].
  rewrite lookup_insert_ne by discriminate. rewrite Hu.
  cbn [hdr]. rewrite lookup_insert_eq.
  unfold str_split, ret. rewrite Hsplit.
  unfold delitem. cbn [hdr].
  rewrite lookup_insert_ne by discriminate. rewrite Hu.
  reflexivity.
Qed.

(** With the option of the midpoint, [adjust_with] leaves the same string
    in DATE-OBS and in MIDPOINT. *)
Lemma adjust_with_midpoint (o : Options.t) (arg : string) (full : hval) w :
  Options.use_midpoint_for_dateobs o = true ->
  post (adjust_with o arg full) w
    (fun _ _ => True)
    (fun _ w' => hdr w' !! "DATE-OBS" = hdr w' !! "MIDPOINT"
                 /\ is_Some (hdr w' !! "MIDPOINT")).
Proof.
  intros Hmid. unfold adjust_with. rewrite Hmid.
  repeat post_step; cbn [hdr]; auto;
    rewrite (lookup_insert_ne _ "JD" "DATE-OBS") by discriminate;
    rewrite (lookup_insert_ne _ "JD" "MIDPOINT") by discriminate;
    rewrite (lookup_insert_ne _ "MIDPOINT" "DATE-OBS") by discriminate;
    rewrite !lookup_insert_eq; eauto.
Qed.

(** X13. With [--use-midpoint-for-dateobs], a time adjustment that
    returns either leaves the header as it was or leaves the same string in
    DATE-OBS and in MIDPOINT. *)
Theorem midpoint_is_dateobs (o : Options.t) (arg : string) (w : world) :
  Options.use_midpoint_for_dateobs o = true ->
  fst (set_times o arg w) = inr tt ->
  hdr (snd (set_times o arg w)) = hdr w
  \/ (hdr (snd (set_times o arg w)) !! "DATE-OBS"
      = hdr (snd (set_times o arg w)) !! "MIDPOINT"
      /\ is_Some (hdr (snd (set_times o arg w)) !! "MIDPOINT")).
Proof.
  intros Hmid.
  assert (Hp : post (set_times o arg) w
                 (fun _ _ => True)
                 (fun _ w' =>
                    hdr w' = hdr w
                    \/ (hdr w' !! "DATE-OBS" = hdr w' !! "MIDPOINT"
                        /\ is_Some (hdr w' !! "MIDPOINT")))).
  { rewrite set_times_eq. unfold extract_full_dateobs.
    repeat post_step; cbn [hdr]; auto;
      (eapply post_weaken;
       [apply adjust_with_midpoint; exact Hmid | auto |]);
      cbv beta; intros _ w' H; auto. }
  apply post_run in Hp.
  destruct (set_times o arg w) as [[e | []] w']; cbn [fst snd] in *;
    [discriminate |].
  intros _. exact Hp.
Qed.

End LegacyDateThrough.

(* ===================================================================== *)
(** ** The steps on concrete files *)
(* ===================================================================== *)

Section Runs.
Import PyStr Re.
Local Open Scope list_scope.
Local Existing Instance Ref.py_float.
Local Existing Instance Ref.civil_time.

Lemma set_calstat_enumerated_witness :
  set_calstat Ex.o_calstat_BD "f.fits" Ex.w_empty
  = (inr tt, {| hdr := {[ "CALSTAT" := VStr "BD" ]}; disk := ∅; out := [] |}).
Proof.
  apply (proj1 (set_calstat_enumerated Ex.o_calstat_BD "f.fits" "BD"
                  Ex.w_empty eq_refl)).
  right; left; reflexivity.
Defined.

(** The failing input of C4: FILTER is V and the options are
    [--filter R --verbose]; the header keeps V and no line is printed. *)
Lemma set_filter_skipped_when_present_witness :
  set_filter Ex.o_filter_R "f.fits" Ex.w_filter_V = (inr tt, Ex.w_filter_V).
Proof.
  exact (set_filter_skipped_when_present Ex.o_filter_R "f.fits" "R"
           Ex.w_filter_V (VStr "V") eq_refl eq_refl).
Defined.

Lemma iris_dateobs_no_calendar_check_witness :
  optionally_set_iris_dateobs Ex.o_iris_13_40 "f.fits"
    Ex.w_empty
  = (inr tt, {| hdr := {[ "DATE-OBS" := VStr "40/13/2023" ]};
                disk := {[ "DATE-OBS" := VStr "40/13/2023" ]};
                out := [] |}).
Proof.
  apply (iris_dateobs_no_calendar_check
           Ex.o_iris_13_40 "f.fits" Ex.w_empty
           [] (chars "2023") (chars "13") (chars "40") []);
    try (repeat constructor; fail); right; reflexivity.
Defined.

Lemma all_digit_chars (l : list ascii) :
  forallb is_digit l = true -> all_digit l.
Proof.
  induction l as [| a l IH]; simpl; intros H; [constructor |].
  apply andb_true_iff in H as [Ha Hl].
  constructor; [exact Ha | apply IH; exact Hl].
Qed.


Lemma coordinates_fields_unbounded_witness :
  set_ra Ex.o_ra_99 "f.fits" Ex.w_empty
  = (inr tt, {| hdr := {[ "RA" := VStr "12 99 99" ]}; disk := ∅; out := [] |}).
Proof.
  apply (proj1 (coordinates_fields_unbounded Ex.o_ra_99 "f.fits" Ex.w_empty
                  [] [] (chars "12") (chars "99") (chars "99") [] []
                  ltac:(constructor) ltac:(constructor)
                  ltac:(left; reflexivity)
                  ltac:(repeat constructor) ltac:(discriminate)
                  ltac:(repeat constructor) ltac:(discriminate)
                  ltac:(repeat constructor) ltac:(discriminate)
                  ltac:(left; reflexivity))
               "12:99:99" eq_refl eq_refl).
Defined.

Lemma no_slash (l : list ascii) :
  forallb (fun a => negb (Ascii.eqb a "/")) l = true -> "/"%char ∉ l.
Proof.
  induction l as [| a l IH]; simpl; intros H.
  - apply not_elem_of_nil.
  - apply andb_true_iff in H as [Ha Hl]. apply not_elem_of_cons. split.
    + intros <-. rewrite Ascii.eqb_refl in Ha. discriminate.
    + apply IH. exact Hl.
Qed.

Lemma extract_full_dateobs_cases_witness :
  extract_full_dateobs "f.fits" (opened Ex.h_ut_start)
  = (inr (Some (VStr "2020-01-05T10:11:12")),
     {| hdr := delete "UT-START" Ex.h_ut_start; disk := Ex.h_ut_start;
        out := [] |}).
Proof.
  apply (proj1 (extract_full_dateobs_cases Ex.o_adjust_tz1 "f.fits"
                  (opened Ex.h_ut_start))
               (VStr "10:11:12") (chars "05") (chars "01") (chars "2020")
               eq_refl eq_refl
               (no_slash (chars "05") eq_refl) (no_slash (chars "01") eq_refl)
               (no_slash (chars "2020") eq_refl)).
Defined.

(** C2 (counterexample). UT-START is present and DATE-OBS is already a
    full ISO date-time: the date is not used as it is; nothing is
    extracted, the diagnostic about the DD/MM/YYYY format is printed and
    the time adjustment writes nothing. *)
Lemma iso_dateobs_with_utstart_not_used :
  extract_full_dateobs "f.fits" (opened Ex.h_ut_iso)
  = (inr None,
     {| hdr := Ex.h_ut_iso; disk := Ex.h_ut_iso;
        out := ["f.fits: DATE-OBS format not DD/MM/YYYY"] |})
  /\ set_times Ex.o_adjust_tz1 "f.fits" (opened Ex.h_ut_iso)
     = (inr tt,
        {| hdr := Ex.h_ut_iso; disk := Ex.h_ut_iso;
           out := ["f.fits: DATE-OBS format not DD/MM/YYYY"] |}).
Proof.
  split; vm_compute; reflexivity.
Qed.

(** The reference instance counts the leap second at the end of 2016:
    sixty seconds after 23:59:30 it is 00:00:29. *)
Example sum_across_leap_second :
  match Ref.of_isot "2016-12-31T23:59:30" with
  | Some t => option_map Ref.isot (Ref.add_sec t 60)
  | None => None
  end = Some "2017-01-01T00:00:29.000".
Proof. vm_compute. reflexivity. Qed.

(** The sum of the reference instance is exact on its scale of
    seconds. *)
Lemma add_sec_exact (t t' : Ref.time) (x : float) (q : Q) :
  Ref.add_sec t x = Some t' -> Ref.Q_of_float x = Some q ->
  (Qabs (t' - (t + q)) <= 0)%Q.
Proof.
  unfold Ref.add_sec. intros H Hq. rewrite Hq in H.
  destruct (Ref.in_range (Qred (t + q))); [| discriminate].
  injection H as <-.
  assert (H : (Qred (t + q) - (t + q) == 0)%Q).
  { rewrite Qred_correct. ring. }
  rewrite H. discriminate.
Qed.



Lemma not_in_keys (k : string) (ks : list string) :
  forallb (fun x => negb (String.eqb k x)) ks = true -> k ∉ ks.
Proof.
  induction ks as [| x ks IH]; simpl; intros H.
  - apply not_elem_of_nil.
  - apply andb_true_iff in H as [Hx Hks]. apply not_elem_of_cons. split.
    + intros <-. rewrite String.eqb_refl in Hx. discriminate.
    + apply IH. exact Hks.
Qed.

Lemma second_run_agrees_witness :
  file_after Ex.o_adjust_tz1 "f.fits"
    (file_after Ex.o_adjust_tz1 "f.fits" Ex.h_ut_start) !! "EXPTIME"
  = file_after Ex.o_adjust_tz1 "f.fits" Ex.h_ut_start !! "EXPTIME".
Proof.
  apply (second_run_agrees Ex.o_adjust_tz1 "f.fits" Ex.h_ut_start "EXPTIME").
  apply not_in_keys. reflexivity.
Defined.

(** C3 (counterexample). DATE-OBS is 2020-01-01T00:00:00 and the options
    are [--adjust-time --tzoffset 1.0]: the first pass leaves 01:00:00 in
    DATE-OBS, the second pass adds the offset again and leaves 02:00:00;
    DATE-OBS is not the same after the second pass as after the first. *)
Example second_run_readjusts_dateobs :
  file_after Ex.o_adjust_tz1 "f.fits" Ex.h_iso !! "DATE-OBS"
  = Some (VStr "2020-01-01T01:00:00.000")
  /\ file_after Ex.o_adjust_tz1 "f.fits"
       (file_after Ex.o_adjust_tz1 "f.fits" Ex.h_iso) !! "DATE-OBS"
     = Some (VStr "2020-01-01T02:00:00.000")
  /\ file_after Ex.o_adjust_tz1 "f.fits"
       (file_after Ex.o_adjust_tz1 "f.fits" Ex.h_iso) !! "DATE-OBS"
     <> file_after Ex.o_adjust_tz1 "f.fits" Ex.h_iso !! "DATE-OBS".
Proof.
  split; [| split]; vm_compute; try reflexivity. discriminate.
Qed.

Lemma set_times_frame_witness :
  hdr (snd (set_times Ex.o_adjust_tz1 "f.fits" (opened Ex.h_ut_start)))
    !! "EXPTIME" = Some (VInt 61)
  /\ disk (snd (set_times Ex.o_adjust_tz1 "f.fits" (opened Ex.h_ut_start)))
     = Ex.h_ut_start.
Proof.
  exact (set_times_frame Ex.o_adjust_tz1 "f.fits" (opened Ex.h_ut_start)
           "EXPTIME"
           (not_in_keys "EXPTIME"
              ["UT-START"; "DATE-OBS"; "MIDPOINT"; "JD"] eq_refl)).
Defined.


Lemma time_options_need_adjust_time_witness :
  process_file (with_time_options Ex.o_object_airmass "10" "30" true)
    "f.fits" (opened Ex.h_iso)
  = process_file Ex.o_object_airmass "f.fits" (opened Ex.h_iso).
Proof.
  exact (time_options_need_adjust_time Ex.o_object_airmass "f.fits"
           "10" "30" true (opened Ex.h_iso) eq_refl).
Defined.

Lemma set_times_error_escapes_witness :
  process_file Ex.o_bad_tz "f.fits" (opened Ex.h_iso)
  = (inl ValueError, opened Ex.h_iso).
Proof.
  refine (proj1 (set_times_error_escapes Ex.o_bad_tz "f.fits"
                   (opened Ex.h_iso) (opened Ex.h_iso) (opened Ex.h_iso)
                   ValueError _ _));
    vm_compute; reflexivity.
Defined.

Lemma ra_accepted_exactly_witness :
  exists ws1 h m s frac ws2,
    all_space ws1 /\ all_space ws2
    /\ all_digit h /\ h <> [] /\ all_digit m /\ m <> []
    /\ all_digit s /\ s <> [] /\ fraction frac
    /\ " 12:34:56.7" = str (ws1 ++ h ++ [":"%char] ++ m ++ [":"%char]
                                ++ s ++ frac ++ ws2)
    /\ "12 34 56.7" = str h +:+ " " +:+ str m +:+ " " +:+ str (s ++ frac).
Proof.
  apply (proj1 (ra_accepted_exactly " 12:34:56.7" "12 34 56.7" eq_refl)).
  vm_compute. reflexivity.
Defined.

Lemma dec_accepted_exactly_witness :
  exists ws1 sg h m s frac ws2,
    all_space ws1 /\ all_space ws2 /\ sign sg
    /\ all_digit h /\ h <> [] /\ all_digit m /\ m <> []
    /\ all_digit s /\ s <> [] /\ fraction frac
    /\ "-5:6:7" = str (ws1 ++ sg ++ h ++ [":"%char] ++ m ++ [":"%char]
                           ++ s ++ frac ++ ws2)
    /\ "-5 6 7" = str (sg ++ h) +:+ " " +:+ str m +:+ " "
                  +:+ str (s ++ frac).
Proof.
  apply (proj1 (dec_accepted_exactly "-5:6:7" "-5 6 7" eq_refl)).
  vm_compute. reflexivity.
Defined.

Lemma iris_option_accepted_exactly_witness :
  exists ws1 y m d ws2,
    all_space ws1 /\ all_space ws2
    /\ all_digit y /\ length y = 4%nat
    /\ all_digit m /\ (length m = 1 \/ length m = 2)%nat
    /\ all_digit d /\ (length d = 1 \/ length d = 2)%nat
    /\ "2023-13-40" = str (ws1 ++ y ++ ["-"%char] ++ m ++ ["-"%char]
                               ++ d ++ ws2).
Proof.
  apply (proj1 (iris_option_accepted_exactly "2023-13-40" eq_refl)).
  eexists. vm_compute. reflexivity.
Defined.

Lemma iris_then_extract_witness :
  (optionally_set_iris_dateobs Ex.o_iris_only "f.fits" ;;
   extract_full_dateobs "f.fits") (opened Ex.h_ut_only)
  = (inr (Some (VStr "2020-01-05T10:11:12")),
     {| hdr := {[ "DATE-OBS" := VStr "05/01/2020" ]};
        disk := <["DATE-OBS" := VStr "05/01/2020"]> Ex.h_ut_only;
        out := [] |}).
Proof.
  etransitivity.
  - apply (iris_then_extract Ex.o_iris_only "f.fits" (opened Ex.h_ut_only)
             (VStr "10:11:12") [] (chars "2020") (chars "1") (chars "5") []).
    + constructor.
    + constructor.
    + apply all_digit_chars. reflexivity.
    + reflexivity.
    + apply all_digit_chars. reflexivity.
    + left. reflexivity.
    + apply all_digit_chars. reflexivity.
    + left. reflexivity.
    + reflexivity.
    + reflexivity.
  - vm_compute. reflexivity.
Defined.

Lemma midpoint_is_dateobs_witness :
  hdr (snd (set_times Ex.o_midpoint "f.fits" (opened Ex.h_ut_start)))
  = Ex.h_ut_start
  \/ (hdr (snd (set_times Ex.o_midpoint "f.fits" (opened Ex.h_ut_start)))
        !! "DATE-OBS"
      = hdr (snd (set_times Ex.o_midpoint "f.fits" (opened Ex.h_ut_start)))
          !! "MIDPOINT"
      /\ is_Some
           (hdr (snd (set_times Ex.o_midpoint "f.fits"
                        (opened Ex.h_ut_start))) !! "MIDPOINT")).
Proof.
  apply (midpoint_is_dateobs Ex.o_midpoint "f.fits" (opened Ex.h_ut_start)).
  - reflexivity.
  - vm_compute. reflexivity.
Defined.

(** The run of the witness: both keywords receive the midpoint. *)
Example midpoint_written_twice :
  hdr (snd (set_times Ex.o_midpoint "f.fits" (opened Ex.h_ut_start)))
    !! "DATE-OBS" = Some (VStr "2020-01-05T11:11:42.500")
  /\ hdr (snd (set_times Ex.o_midpoint "f.fits" (opened Ex.h_ut_start)))
       !! "MIDPOINT" = Some (VStr "2020-01-05T11:11:42.500").
Proof.
  split; vm_compute; reflexivity.
Qed.

End Runs.
